(** * Autoformfiller: the configuration holder and the field-filling sequencer

    A shallow embedding of [config_file.py] (class [FormFillerConfig]) and of
    [main_form_filler.py] (class [FormFiller]).

    - Durations are Python floats in seconds; they are modelled as rationals
      [Q] (0.5 is [1#2]).  The IEEE special values are outside the model.
    - A record is the dict that [data.iloc[index].to_dict()] yields: a finite
      map from column names to scalar cells.
    - The synthetic input channel (pyautogui) and [time.sleep] are the
      boundary of the program.  Every call to them is one tick of a clock;
      an environment, given as a function from ticks to faults, decides
      whether the call goes through or raises.  A call is atomic: it leaves
      its event or it raises.
    - Exceptions arise at the boundary only: an interrupt is delivered at a
      call of pyautogui, of [time.sleep] or of [pandas.read_csv], never
      inside a logging call or between two statements.  What is said of
      every environment is said of every choice of faults at those calls.
    - The pause that pyautogui adds after each of its calls is a
      [time.sleep(pyautogui.PAUSE)] inside the library, and [__init__] sets
      [pyautogui.PAUSE] to [pause_between_actions].  The pause is part of
      the atomic call and is taken as not negative; with a negative one
      every call of pyautogui would raise [ValueError] after its dispatch.
      A statement that a call of pyautogui goes through is made for the
      durations of section 3, [pause_between_actions] among them.
    - The calls, the log lines and the console lines are collected in order
      in an output trace; a log line is kept as its format with the values
      put into it, not as text. *)

From Stdlib Require Import ZArith QArith List Bool Lia Sorted.
From Stdlib Require Ascii.
From stdpp Require Import base option list gmap strings.
Import ListNotations.

Local Open Scope string_scope.
Local Open Scope list_scope.
Local Open Scope Z_scope.

(** ** Configuration ([config_file.py]) *)

Module Config.

Record FormFillerConfig := mkConfig {
  pause_between_actions : Q;
  typing_interval : Q;
  field_transition_delay : Q;
  form_submission_delay : Q;
  record_delay : Q;
  page_load_delay : Q;
  wait_for_page_load : bool;
  clear_fields : bool;
  use_failsafe : bool;
  navigation_method : string;
  submission_method : string;
  skip_empty_fields : bool;
  max_field_length : option Z;
  encoding : string;
  max_records_per_session : option Z;
  confirmation_required : bool;
  log_level : string;
  log_file : option string;
  screen_resolution : option (Z * Z)
}.

(** The dataclass defaults, [FormFillerConfig()]. *)
Definition DEFAULT_CONFIG : FormFillerConfig := {|
  pause_between_actions := 1 # 2;
  typing_interval := 1 # 20;
  field_transition_delay := 3 # 10;
  form_submission_delay := 2;
  record_delay := 1;
  page_load_delay := 3;
  wait_for_page_load := true;
  clear_fields := true;
  use_failsafe := true;
  navigation_method := "tab";
  submission_method := "enter";
  skip_empty_fields := true;
  max_field_length := None;
  encoding := "utf-8";
  max_records_per_session := None;
  confirmation_required := true;
  log_level := "INFO";
  log_file := None;
  screen_resolution := None
|}.

(** [x < 0] on durations. *)
Definition Qnegb (x : Q) : bool := (Qnum x <? 0)%Z.

(** [x in [a; b; ...]] on strings. *)
Definition str_in (x : string) (l : list string) : bool :=
  existsb (String.eqb x) l.

(** [x is not None and x <= 0]. *)
Definition nonpos_limit (x : option Z) : bool :=
  match x with
  | Some n => (n <=? 0)%Z
  | None => false
  end.

(** What a call of [validate] does: it returns [None], or raises
    [ValueError(msg)]. *)
Inductive Outcome :=
  | Returns
  | RaisesValueError (msg : string).

Definition validate (self : FormFillerConfig) : Outcome :=
  if Qnegb (pause_between_actions self) then
    RaisesValueError "pause_between_actions must be non-negative"
  else if Qnegb (typing_interval self) then
    RaisesValueError "typing_interval must be non-negative"
  else if negb (str_in (navigation_method self) ["tab"; "enter"; "click"]) then
    RaisesValueError "navigation_method must be 'tab', 'enter', or 'click'"
  else if negb (str_in (submission_method self) ["enter"; "tab_enter"; "click"]) then
    RaisesValueError "submission_method must be 'enter', 'tab_enter', or 'click'"
  else if negb (str_in (log_level self) ["DEBUG"; "INFO"; "WARNING"; "ERROR"]) then
    RaisesValueError "log_level must be 'DEBUG', 'INFO', 'WARNING', or 'ERROR'"
  else if nonpos_limit (max_field_length self) then
    RaisesValueError "max_field_length must be positive or None"
  else if nonpos_limit (max_records_per_session self) then
    RaisesValueError "max_records_per_session must be positive or None"
  else Returns.

(** [dataclasses.replace(c, field=v)] for the fields varied below. *)
Definition with_pause_between_actions (v : Q) (c : FormFillerConfig) :=
  mkConfig v (typing_interval c) (field_transition_delay c)
    (form_submission_delay c) (record_delay c) (page_load_delay c)
    (wait_for_page_load c) (clear_fields c) (use_failsafe c)
    (navigation_method c) (submission_method c) (skip_empty_fields c)
    (max_field_length c) (encoding c) (max_records_per_session c)
    (confirmation_required c) (log_level c) (log_file c) (screen_resolution c).

Definition with_typing_interval (v : Q) (c : FormFillerConfig) :=
  mkConfig (pause_between_actions c) v (field_transition_delay c)
    (form_submission_delay c) (record_delay c) (page_load_delay c)
    (wait_for_page_load c) (clear_fields c) (use_failsafe c)
    (navigation_method c) (submission_method c) (skip_empty_fields c)
    (max_field_length c) (encoding c) (max_records_per_session c)
    (confirmation_required c) (log_level c) (log_file c) (screen_resolution c).

Definition with_field_transition_delay (v : Q) (c : FormFillerConfig) :=
  mkConfig (pause_between_actions c) (typing_interval c) v
    (form_submission_delay c) (record_delay c) (page_load_delay c)
    (wait_for_page_load c) (clear_fields c) (use_failsafe c)
    (navigation_method c) (submission_method c) (skip_empty_fields c)
    (max_field_length c) (encoding c) (max_records_per_session c)
    (confirmation_required c) (log_level c) (log_file c) (screen_resolution c).

Definition with_navigation_method (v : string) (c : FormFillerConfig) :=
  mkConfig (pause_between_actions c) (typing_interval c) (field_transition_delay c)
    (form_submission_delay c) (record_delay c) (page_load_delay c)
    (wait_for_page_load c) (clear_fields c) (use_failsafe c)
    v (submission_method c) (skip_empty_fields c)
    (max_field_length c) (encoding c) (max_records_per_session c)
    (confirmation_required c) (log_level c) (log_file c) (screen_resolution c).

Definition with_submission_method (v : string) (c : FormFillerConfig) :=
  mkConfig (pause_between_actions c) (typing_interval c) (field_transition_delay c)
    (form_submission_delay c) (record_delay c) (page_load_delay c)
    (wait_for_page_load c) (clear_fields c) (use_failsafe c)
    (navigation_method c) v (skip_empty_fields c)
    (max_field_length c) (encoding c) (max_records_per_session c)
    (confirmation_required c) (log_level c) (log_file c) (screen_resolution c).

Definition with_skip_empty_fields (v : bool) (c : FormFillerConfig) :=
  mkConfig (pause_between_actions c) (typing_interval c) (field_transition_delay c)
    (form_submission_delay c) (record_delay c) (page_load_delay c)
    (wait_for_page_load c) (clear_fields c) (use_failsafe c)
    (navigation_method c) (submission_method c) v
    (max_field_length c) (encoding c) (max_records_per_session c)
    (confirmation_required c) (log_level c) (log_file c) (screen_resolution c).

Definition with_max_field_length (v : option Z) (c : FormFillerConfig) :=
  mkConfig (pause_between_actions c) (typing_interval c) (field_transition_delay c)
    (form_submission_delay c) (record_delay c) (page_load_delay c)
    (wait_for_page_load c) (clear_fields c) (use_failsafe c)
    (navigation_method c) (submission_method c) (skip_empty_fields c)
    v (encoding c) (max_records_per_session c)
    (confirmation_required c) (log_level c) (log_file c) (screen_resolution c).

Definition with_max_records_per_session (v : option Z) (c : FormFillerConfig) :=
  mkConfig (pause_between_actions c) (typing_interval c) (field_transition_delay c)
    (form_submission_delay c) (record_delay c) (page_load_delay c)
    (wait_for_page_load c) (clear_fields c) (use_failsafe c)
    (navigation_method c) (submission_method c) (skip_empty_fields c)
    (max_field_length c) (encoding c) v
    (confirmation_required c) (log_level c) (log_file c) (screen_resolution c).

Definition with_log_level (v : string) (c : FormFillerConfig) :=
  mkConfig (pause_between_actions c) (typing_interval c) (field_transition_delay c)
    (form_submission_delay c) (record_delay c) (page_load_delay c)
    (wait_for_page_load c) (clear_fields c) (use_failsafe c)
    (navigation_method c) (submission_method c) (skip_empty_fields c)
    (max_field_length c) (encoding c) (max_records_per_session c)
    (confirmation_required c) v (log_file c) (screen_resolution c).

(** The invariant of the data model: every duration is at least 0, the two
    methods are among their three choices, and a limit that is present is
    positive. *)
Definition positive_limit (x : option Z) : Prop :=
  match x with
  | Some n => 0 < n
  | None => True
  end.

Definition durations_nonneg (c : FormFillerConfig) : Prop :=
  (0 <= pause_between_actions c)%Q /\
  (0 <= typing_interval c)%Q /\
  (0 <= field_transition_delay c)%Q /\
  (0 <= form_submission_delay c)%Q /\
  (0 <= record_delay c)%Q /\
  (0 <= page_load_delay c)%Q.

Definition section3_invariants (c : FormFillerConfig) : Prop :=
  durations_nonneg c /\
  In (navigation_method c) ["tab"; "enter"; "click"] /\
  In (submission_method c) ["enter"; "tab_enter"; "click"] /\
  positive_limit (max_field_length c) /\
  positive_limit (max_records_per_session c).

End Config.

(** ** The sequencer ([main_form_filler.py]) *)

Module Sequencer.
Import Config.

(** *** Cells and records *)

(** A scalar cell of a data row: text, a number (carried with the text that
    [str()] gives it), or the missing value NaN, for which [pd.notna] is
    false and which [str()] shows as 'nan'.  [pandas.read_csv] reads an
    empty cell as [NA]; [None] is not among the cells it yields. *)
Inductive Cell :=
  | Str (s : string)
  | Num (shown : string)
  | NA.

Definition notna (value : Cell) : bool :=
  match value with
  | NA => false
  | _ => true
  end.

Definition str (value : Cell) : string :=
  match value with
  | Str s => s
  | Num shown => shown
  | NA => "nan"
  end.

Abbreviation Record_ := (gmap string Cell).

(** *** Exceptions, faults of the environment, and the output trace *)

Inductive Exn :=
  | KeyboardInterrupt
  | FailSafeException
  | ValueError
  | IndexError
  | UnboundLocalError
  | InputError.

(** [KeyboardInterrupt] derives from [BaseException] only, so
    [except Exception] lets it through. *)
Definition is_Exception (e : Exn) : bool :=
  match e with
  | KeyboardInterrupt => false
  | _ => true
  end.

(** What the environment does to one call at the boundary. *)
Inductive Fault :=
  | NoFault
  | PointerInCorner
  | CtrlC
  | DispatchFailure.

Definition Env := nat -> Fault.

Inductive Action :=
  | Hotkey (keys : list string)
  | Write (text : string) (interval : Q)
  | Press (key : string)
  | Sleep (seconds : Q).

Inductive Level := INFO | WARNING | ERROR.

(** The log and console lines of the sequencer; each constructor stands for
    one format string, its arguments for the interpolated values. *)
Inductive Msg :=
  | FailSafe_triggered
  | Error_typing_text (e : Exn)
  | Unknown_navigation_method (method : string)
  | Error_moving_to_next_field (e : Exn)
  | Error_submitting_form (e : Exn)
  | Field_not_found (field_name : string)
  | Error_filling_record (e : Exn)
  | Processing_records (first last : Z)
  | Processing_record (number total : Z)
  | Failed_to_fill (number : Z)
  | Failed_to_submit (number : Z)
  | Successfully_processed (number : Z)
  | Form_filling_completed
  | Interrupted_at_record (number : Z)
  | Stopped_at_record (number : Z)
  | FailSafe_activated
  | Unexpected_error (e : Exn).

(** The output trace.  [Did a]: the call [a] at the boundary went through;
    [Raised a e]: it raised [e]; [Log], [Print]: a line of the logger or of
    the console; [Call_...]: entry into a method of [FormFiller] with its
    arguments (a ghost event, so that the trace tells which methods were
    invoked). *)
Inductive Event :=
  | Did (a : Action)
  | Raised (a : Action) (e : Exn)
  | Log (lvl : Level) (m : Msg)
  | Print (m : Msg)
  | Call_type_text (text : Cell) (clear_field : bool)
  | Call_move_to_next_field (method : string)
  | Call_submit_form (method : string)
  | Call_fill_single_record (record : gmap string Cell) (field_order : list string).

(** *** The monad: a clock, the loop variable of [fill_forms], exceptions,
    and the output trace *)

Record State := mkState {
  clock : nat;
  index : option Z
}.

Inductive Res (A : Type) :=
  | Val (a : A)
  | Exc (e : Exn).
Arguments Val {A} a.
Arguments Exc {A} e.

Definition M (A : Type) : Type := State -> Res A * State * list Event.

Definition ret {A} (a : A) : M A := fun s => (Val a, s, []).

Definition raise {A} (e : Exn) : M A := fun s => (Exc e, s, []).

Definition bind {A B} (m : M A) (k : A -> M B) : M B := fun s =>
  match m s with
  | (Val a, s1, o1) =>
      match k a s1 with
      | (r, s2, o2) => (r, s2, o1 ++ o2)
      end
  | (Exc e, s1, o1) => (Exc e, s1, o1)
  end.

(** [try: m / except ...]: the handler answers [None] for an exception that
    no [except] clause matches. *)
Definition try_except {A} (m : M A) (h : Exn -> option (M A)) : M A := fun s =>
  match m s with
  | (Val a, s1, o1) => (Val a, s1, o1)
  | (Exc e, s1, o1) =>
      match h e with
      | Some k =>
          match k s1 with
          | (r, s2, o2) => (r, s2, o1 ++ o2)
          end
      | None => (Exc e, s1, o1)
      end
  end.

Declare Scope seq_scope.
Delimit Scope seq_scope with seq.
Notation "x <- c1 ;; c2" := (bind c1 (fun x => c2))
  (at level 100, c1 at next level, c2 at level 200, right associativity) : seq_scope.
Notation "c1 ;; c2" := (bind c1 (fun _ => c2))
  (at level 100, c2 at level 200, right associativity) : seq_scope.
Local Open Scope seq_scope.

Definition emit (e : Event) : M unit := fun s => (Val tt, s, [e]).

(** A call of the logger writes its line; it raises nothing and no
    interrupt is delivered inside it. *)
Definition logger (lvl : Level) (m : Msg) : M unit := emit (Log lvl m).

Definition print (m : Msg) : M unit := emit (Print m).

Definition set_index (i : Z) : M unit := fun s =>
  (Val tt, {| clock := clock s; index := Some i |}, []).

Definition new_frame : M unit := fun s =>
  (Val tt, {| clock := clock s; index := None |}, []).

(** Reading the local [index]; unbound before the first iteration.  No
    exception of the boundary reaches the handler of [fill_forms] with
    [index] unbound; an interrupt delivered before the loop would. *)
Definition get_index : M Z := fun s =>
  match index s with
  | Some i => (Val i, s, [])
  | None => (Exc UnboundLocalError, s, [])
  end.

Section WithEnv.

Variable env : Env.

Definition tick : M Fault := fun s =>
  (Val (env (clock s)), {| clock := S (clock s); index := index s |}, []).

(** A call into pyautogui: the failsafe check, the dispatch, or an
    interrupt may raise; the call is taken as atomic, its pause
    ([pyautogui.PAUSE], not negative) included. *)
Definition pyautogui (a : Action) : M unit :=
  f <- tick ;;
  match f with
  | NoFault => emit (Did a)
  | PointerInCorner => emit (Raised a FailSafeException) ;; raise FailSafeException
  | CtrlC => emit (Raised a KeyboardInterrupt) ;; raise KeyboardInterrupt
  | DispatchFailure => emit (Raised a InputError) ;; raise InputError
  end.

(** [time.sleep(seconds)]: a negative length is a [ValueError]; the
    pointer and the input channel play no part, an interrupt does. *)
Definition time_sleep (seconds : Q) : M unit :=
  f <- tick ;;
  if Qnegb seconds then
    emit (Raised (Sleep seconds) ValueError) ;; raise ValueError
  else
    match f with
    | CtrlC => emit (Raised (Sleep seconds) KeyboardInterrupt) ;; raise KeyboardInterrupt
    | _ => emit (Did (Sleep seconds))
    end.

Variable config : FormFillerConfig.

Definition type_text (text : Cell) (clear_field : bool) : M bool :=
  emit (Call_type_text text clear_field) ;;
  try_except
    ((if clear_field then
        pyautogui (Hotkey ["ctrl"; "a"]) ;;
        time_sleep (1 # 10)
      else ret tt) ;;
     pyautogui (Write (str text) (typing_interval config)) ;;
     ret true)
    (fun e =>
       match e with
       | FailSafeException => Some (logger WARNING FailSafe_triggered ;; ret false)
       | KeyboardInterrupt => None
       | _ => Some (logger ERROR (Error_typing_text e) ;; ret false)
       end).

Definition move_to_next_field (method : string) : M bool :=
  emit (Call_move_to_next_field method) ;;
  try_except
    (known <-
       (if String.eqb method "tab" then pyautogui (Press "tab") ;; ret true
        else if String.eqb method "enter" then pyautogui (Press "enter") ;; ret true
        else if String.eqb method "click" then ret true
        else logger WARNING (Unknown_navigation_method method) ;; ret false) ;;
     if negb known then ret false
     else time_sleep (field_transition_delay config) ;; ret true)
    (fun e =>
       match e with
       | FailSafeException => Some (logger WARNING FailSafe_triggered ;; ret false)
       | KeyboardInterrupt => None
       | _ => Some (logger ERROR (Error_moving_to_next_field e) ;; ret false)
       end).

Definition submit_form (method : string) : M bool :=
  emit (Call_submit_form method) ;;
  try_except
    ((if String.eqb method "enter" then pyautogui (Press "enter")
      else if String.eqb method "tab_enter" then
        pyautogui (Press "tab") ;;
        time_sleep (1 # 2) ;;
        pyautogui (Press "enter")
      else if String.eqb method "click" then ret tt
      else ret tt) ;;
     time_sleep (form_submission_delay config) ;;
     ret true)
    (fun e =>
       match e with
       | FailSafeException => Some (logger WARNING FailSafe_triggered ;; ret false)
       | KeyboardInterrupt => None
       | _ => Some (logger ERROR (Error_submitting_form e) ;; ret false)
       end).

(** The [for field_name in field_order] loop of [fill_single_record];
    [type_text] and [move_to_next_field] are called with their defaults. *)
Fixpoint fill_fields (record : Record_) (field_order : list string) : M bool :=
  match field_order with
  | [] => ret true
  | field_name :: rest =>
      match record !! field_name with
      | Some value =>
          if notna value then
            typed <- type_text value true ;;
            if negb typed then ret false
            else
              moved <- move_to_next_field "tab" ;;
              if negb moved then ret false
              else fill_fields record rest
          else fill_fields record rest
      | None =>
          logger WARNING (Field_not_found field_name) ;;
          moved <- move_to_next_field "tab" ;;
          if negb moved then ret false
          else fill_fields record rest
      end
  end.

Definition fill_single_record (record : Record_) (field_order : list string) : M bool :=
  emit (Call_fill_single_record record field_order) ;;
  try_except
    (fill_fields record field_order)
    (fun e =>
       if is_Exception e then Some (logger ERROR (Error_filling_record e) ;; ret false)
       else None).

(** [len(data)] and [data.iloc[index]]: a negative position counts from the
    end, a position out of bounds is an [IndexError]. *)
Definition len (data : list Record_) : Z := Z.of_nat (length data).

Definition iloc (data : list Record_) (i : Z) : M Record_ :=
  let j := if (i <? 0)%Z then len data + i else i in
  if (j <? 0)%Z then raise IndexError
  else
    match data !! Z.to_nat j with
    | Some row => ret row
    | None => raise IndexError
    end.

(** [range(start, stop)]. *)
Definition range (start stop : Z) : list Z := seqZ start (stop - start).

(** [if max_records:] is false for [None] and for [0]. *)
Definition end_row (data : list Record_) (start_row : Z) (max_records : option Z) : Z :=
  match max_records with
  | Some m => if (m =? 0)%Z then len data else Z.min (start_row + m) (len data)
  | None => len data
  end.

(** One pass through the body of [for index in range(start_row, end_row)]
    in [fill_forms]: [true] goes on to the next index, [false] is [break]. *)
Definition fill_forms_body (data : list Record_) (field_order : list string)
    (i : Z) : M bool :=
  set_index i ;;
  record <- iloc data i ;;
  logger INFO (Processing_record (i + 1) (len data)) ;;
  filled <- fill_single_record record field_order ;;
  if negb filled then
    logger ERROR (Failed_to_fill (i + 1)) ;; ret false
  else
    submitted <- submit_form "enter" ;;
    if negb submitted then
      logger ERROR (Failed_to_submit (i + 1)) ;; ret false
    else
      time_sleep (record_delay config) ;;
      (if wait_for_page_load config then time_sleep (page_load_delay config)
       else ret tt) ;;
      logger INFO (Successfully_processed (i + 1)) ;;
      ret true.

Fixpoint fill_forms_loop (data : list Record_) (field_order : list string)
    (indices : list Z) : M unit :=
  match indices with
  | [] => ret tt
  | i :: rest =>
      go_on <- fill_forms_body data field_order i ;;
      if go_on then fill_forms_loop data field_order rest
      else ret tt
  end.

Definition fill_forms (data : list Record_) (field_order : list string)
    (start_row : Z) (max_records : option Z) : M unit :=
  new_frame ;;
  try_except
    (let stop := end_row data start_row max_records in
     logger INFO (Processing_records start_row (stop - 1)) ;;
     fill_forms_loop data field_order (range start_row stop) ;;
     logger INFO Form_filling_completed)
    (fun e =>
       match e with
       | KeyboardInterrupt =>
           Some (i <- get_index ;;
                 logger INFO (Interrupted_at_record (i + 1)) ;;
                 print (Stopped_at_record (i + 1)))
       | FailSafeException => Some (logger INFO FailSafe_activated)
       | _ => Some (logger ERROR (Unexpected_error e))
       end).

End WithEnv.

(** Projections of a run. *)
Definition result {A} (r : Res A * State * list Event) : Res A := fst (fst r).
Definition final {A} (r : Res A * State * list Event) : State := snd (fst r).
Definition output {A} (r : Res A * State * list Event) : list Event := snd r.

(** No fault at the [n] ticks from [t] on; no fault ever. *)
Definition quiet (env : Env) (t n : nat) : Prop :=
  forall k, (t <= k < t + n)%nat -> env k = NoFault.

Definition faultless (env : Env) : Prop := forall t, env t = NoFault.

Definition advance (n : nat) (s : State) : State :=
  {| clock := n + clock s; index := index s |}.

(** *** Reading a trace *)

(** The parts of a trace that [f] selects, in order. *)
Fixpoint pick {A} (f : Event -> option A) (out : list Event) : list A :=
  match out with
  | [] => []
  | e :: rest =>
      match f e with
      | Some a => a :: pick f rest
      | None => pick f rest
      end
  end.

(** The records handed to [fill_single_record], in order. *)
Definition processed (out : list Event) : list Record_ :=
  pick (fun e => match e with
                 | Call_fill_single_record record _ => Some record
                 | _ => None
                 end) out.

(** The values handed to [type_text], and the methods handed to
    [move_to_next_field] and to [submit_form]. *)
Definition typed (out : list Event) : list Cell :=
  pick (fun e => match e with
                 | Call_type_text text _ => Some text
                 | _ => None
                 end) out.

Definition moves (out : list Event) : list string :=
  pick (fun e => match e with
                 | Call_move_to_next_field method => Some method
                 | _ => None
                 end) out.

Definition submits (out : list Event) : list string :=
  pick (fun e => match e with
                 | Call_submit_form method => Some method
                 | _ => None
                 end) out.

(** The keys that were pressed. *)
Definition pressed (out : list Event) : list string :=
  pick (fun e => match e with
                 | Did (Press key) => Some key
                 | _ => None
                 end) out.

(** The record numbers ([index + 1]) of the lines "Processing record",
    "Successfully processed record" and "Failed to fill / submit record". *)
Definition started (out : list Event) : list Z :=
  pick (fun e => match e with
                 | Log INFO (Processing_record number _) => Some number
                 | _ => None
                 end) out.

Definition completed (out : list Event) : list Z :=
  pick (fun e => match e with
                 | Log INFO (Successfully_processed number) => Some number
                 | _ => None
                 end) out.

Definition failed (out : list Event) : list Z :=
  pick (fun e => match e with
                 | Log ERROR (Failed_to_fill number) => Some number
                 | Log ERROR (Failed_to_submit number) => Some number
                 | _ => None
                 end) out.

(** The first call that raised, its exception, and all that follows it. *)
Fixpoint ending (out : list Event) : option (Action * Exn * list Event) :=
  match out with
  | [] => None
  | Raised a e :: rest => Some (a, e, rest)
  | _ :: rest => ending rest
  end.

(** The field names that [fill_single_record] advances past: those absent
    from the record and those whose value is not missing; and the values
    it types. *)
Definition advanced_past (record : Record_) (field_name : string) : bool :=
  match record !! field_name with
  | Some value => notna value
  | None => true
  end.

Definition values_to_type (record : Record_) (field_order : list string) : list Cell :=
  flat_map (fun field_name =>
              match record !! field_name with
              | Some value => if notna value then [value] else []
              | None => []
              end) field_order.

(** Events of the steps of one record, as opposed to the lines of the loop
    over the records. *)
Definition is_step (e : Event) : bool :=
  match e with
  | Log INFO _ => false
  | Log ERROR (Failed_to_fill _) => false
  | Log ERROR (Failed_to_submit _) => false
  | Log ERROR (Unexpected_error _) => false
  | Print _ => false
  | Call_fill_single_record _ _ => false
  | _ => true
  end.

(** How a step ([type_text], [move_to_next_field], [submit_form],
    [fill_single_record]) can end: [True] with no raise; [False] after one
    caught raise and its log line; or an interrupt that goes through. *)
Definition step_outcome (r : Res bool) (out : list Event) : Prop :=
  match ending out with
  | None => r = Val true
  | Some (_, KeyboardInterrupt, after) => r = Exc KeyboardInterrupt /\ after = []
  | Some (_, FailSafeException, after) =>
      r = Val false /\ after = [Log WARNING FailSafe_triggered]
  | Some (_, _, after) =>
      r = Val false /\ exists m, after = [Log ERROR m]
  end.

Definition step_props (m : M bool) : Prop :=
  forall s,
    step_outcome (result (m s)) (output (m s)) /\
    Forall (fun e => is_step e = true) (output (m s)) /\
    index (final (m s)) = index s.

(** How the loop over the records stops at the record numbered [k], after
    the raise that [ending] finds: an interrupt goes through, with the loop
    variable at [k - 1]; a raise caught in a step ends the loop by [break]
    (the result [brk]) after the line "Failed to fill / submit record k";
    any other exception goes through. *)
Definition stop_spec {A} (brk : Res A) (k : Z) (r : Res A) (idx : option Z)
    (out : list Event) : Prop :=
  match ending out with
  | None => False
  | Some (_, KeyboardInterrupt, after) =>
      r = Exc KeyboardInterrupt /\ after = [] /\ idx = Some (k - 1) /\ failed out = []
  | Some (_, FailSafeException, after) =>
      r = brk /\ failed out = [k] /\
      exists m, after = [Log WARNING FailSafe_triggered; Log ERROR m] /\
                (m = Failed_to_fill k \/ m = Failed_to_submit k)
  | Some (_, e, after) =>
      (r = brk /\ failed out = [k] /\
       exists m' m, after = [Log ERROR m'; Log ERROR m] /\
                    (m = Failed_to_fill k \/ m = Failed_to_submit k)) \/
      (r = Exc e /\ after = [] /\ failed out = [])
  end.

(** *** Concrete inputs *)

Definition start : State := {| clock := 0; index := None |}.

Definition calm : Env := fun _ => NoFault.

(** Ctrl-C, respectively the pointer in the corner, at tick [t] only. *)
Definition interrupt_at (t : nat) : Env :=
  fun k => if Nat.eqb k t then CtrlC else NoFault.

Definition corner_at (t : nat) : Env :=
  fun k => if Nat.eqb k t then PointerInCorner else NoFault.

Definition row (name : string) : Record_ := {[ "name" := Str name ]}.

Definition five_rows : list Record_ := [row "A"; row "B"; row "C"; row "D"; row "E"].

Definition two_rows : list Record_ := [row "A"; row "B"].

Definition name_missing : Record_ :=
  <["name" := NA]> {[ "email" := Str "a@x.com" ]}.

Definition email_missing : Record_ :=
  <["name" := Str "A"]> {[ "email" := NA ]}.

Definition other_methods : FormFillerConfig :=
  with_navigation_method "enter" (with_submission_method "tab_enter" DEFAULT_CONFIG).

End Sequencer.

(** ** The predefined configurations ([CommonConfigs]) *)

Module CommonConfigs.
Import Config.

(** [FormFillerConfig(...)] with the six timings given and, when given, the
    two methods and [wait_for_page_load]; every other field has its
    default. *)
Definition preset (pause typing transition submission record page : Q)
    (navigation submission_key : string) (wait : bool) : FormFillerConfig :=
  mkConfig pause typing transition submission record page
    wait (clear_fields DEFAULT_CONFIG) (use_failsafe DEFAULT_CONFIG)
    navigation submission_key (skip_empty_fields DEFAULT_CONFIG)
    (max_field_length DEFAULT_CONFIG) (encoding DEFAULT_CONFIG)
    (max_records_per_session DEFAULT_CONFIG)
    (confirmation_required DEFAULT_CONFIG) (log_level DEFAULT_CONFIG)
    (log_file DEFAULT_CONFIG) (screen_resolution DEFAULT_CONFIG).

Definition fast_filling : FormFillerConfig :=
  preset (1 # 10) (1 # 100) (1 # 10) 1 (1 # 2) (3 # 2)
    (navigation_method DEFAULT_CONFIG) (submission_method DEFAULT_CONFIG)
    (wait_for_page_load DEFAULT_CONFIG).

Definition slow_reliable : FormFillerConfig :=
  preset 1 (1 # 10) (1 # 2) 3 2 5
    (navigation_method DEFAULT_CONFIG) (submission_method DEFAULT_CONFIG)
    (wait_for_page_load DEFAULT_CONFIG).

Definition web_forms : FormFillerConfig :=
  preset (1 # 2) (1 # 20) (3 # 10) 2 (3 # 2) 4 "tab" "enter" true.

Definition desktop_apps : FormFillerConfig :=
  preset (3 # 10) (3 # 100) (1 # 5) 1 (1 # 2) 1 "tab" "enter" false.

Definition all : list FormFillerConfig :=
  [fast_filling; slow_reliable; web_forms; desktop_apps].

End CommonConfigs.

(** ** Configuration from the environment ([FormFillerConfig.from_env]) *)

Module FromEnv.
Import Stdlib.Strings.Ascii.
Import Config.

(** [os.environ]: the variables that are set, with their values. *)
Abbreviation Environ := (gmap string string).

(** [os.getenv(name, default)]: a variable set to the empty string is set. *)
Definition getenv (environ : Environ) (name default : string) : string :=
  match environ !! name with
  | Some value => value
  | None => default
  end.

(** [str.lower] on the ASCII letters; the other bytes are kept.  No
    character outside ASCII lowers to one of t, r, u, e, so the comparison
    with 'true' below is the one of the source. *)
Definition lower_ascii (c : ascii) : ascii :=
  let n := nat_of_ascii c in
  if (65 <=? n)%nat && (n <=? 90)%nat then ascii_of_nat (n + 32) else c.

Fixpoint lower (s : string) : string :=
  match s with
  | String.EmptyString => String.EmptyString
  | String.String c rest => String.String (lower_ascii c) (lower rest)
  end.

(** [os.getenv(name, 'True').lower() == 'true']. *)
Definition flag (environ : Environ) (name : string) : bool :=
  String.eqb (lower (getenv environ name "True")) "true".

Section WithParsers.

(** The builtins [float] and [int] on strings: [None] is their
    [ValueError].  [float] is taken on the strings that read as a finite
    number. *)
Variable float : string -> option Q.
Variable int : string -> option Z.

(** [int(os.getenv(name)) if os.getenv(name) else None]; the outer option
    is the [ValueError] of [int]. *)
Definition optional_int (environ : Environ) (name : string) : option (option Z) :=
  match environ !! name with
  | Some value =>
      if String.eqb value "" then Some None
      else match int value with
           | Some n => Some (Some n)
           | None => None
           end
  | None => Some None
  end.

(** [from_env]: [None] is the [ValueError] of a number that does not
    parse.  The keyword arguments are evaluated in the order written. *)
Definition from_env (environ : Environ) : option FormFillerConfig :=
  pause ← float (getenv environ "FF_PAUSE_BETWEEN_ACTIONS" "0.5");
  typing ← float (getenv environ "FF_TYPING_INTERVAL" "0.05");
  transition ← float (getenv environ "FF_FIELD_TRANSITION_DELAY" "0.3");
  submission ← float (getenv environ "FF_FORM_SUBMISSION_DELAY" "2.0");
  record ← float (getenv environ "FF_RECORD_DELAY" "1.0");
  page ← float (getenv environ "FF_PAGE_LOAD_DELAY" "3.0");
  field_length ← optional_int environ "FF_MAX_FIELD_LENGTH";
  per_session ← optional_int environ "FF_MAX_RECORDS_PER_SESSION";
  Some (mkConfig pause typing transition submission record page
          (flag environ "FF_WAIT_FOR_PAGE_LOAD")
          (flag environ "FF_CLEAR_FIELDS")
          (flag environ "FF_USE_FAILSAFE")
          (getenv environ "FF_NAVIGATION_METHOD" "tab")
          (getenv environ "FF_SUBMISSION_METHOD" "enter")
          (flag environ "FF_SKIP_EMPTY_FIELDS")
          field_length
          (getenv environ "FF_ENCODING" "utf-8")
          per_session
          (flag environ "FF_CONFIRMATION_REQUIRED")
          (getenv environ "FF_LOG_LEVEL" "INFO")
          (environ !! "FF_LOG_FILE")
          None).

End WithParsers.

(** The names that [from_env] reads. *)
Definition variables : list string :=
  ["FF_PAUSE_BETWEEN_ACTIONS"; "FF_TYPING_INTERVAL"; "FF_FIELD_TRANSITION_DELAY";
   "FF_FORM_SUBMISSION_DELAY"; "FF_RECORD_DELAY"; "FF_PAGE_LOAD_DELAY";
   "FF_WAIT_FOR_PAGE_LOAD"; "FF_CLEAR_FIELDS"; "FF_USE_FAILSAFE";
   "FF_NAVIGATION_METHOD"; "FF_SUBMISSION_METHOD"; "FF_SKIP_EMPTY_FIELDS";
   "FF_MAX_FIELD_LENGTH"; "FF_ENCODING"; "FF_MAX_RECORDS_PER_SESSION";
   "FF_CONFIRMATION_REQUIRED"; "FF_LOG_LEVEL"; "FF_LOG_FILE"].

(** The spellings of 'true' that [flag] accepts. *)
Definition spells_true (value : string) : Prop :=
  exists c1 c2 c3 c4 : ascii,
    value = String.String c1 (String.String c2 (String.String c3
              (String.String c4 String.EmptyString))) /\
    (c1 = "t"%char \/ c1 = "T"%char) /\ (c2 = "r"%char \/ c2 = "R"%char) /\
    (c3 = "u"%char \/ c3 = "U"%char) /\ (c4 = "e"%char \/ c4 = "E"%char).

(** Parsers for the examples: the six default literals and a few more. *)
Definition float_sample (s : string) : option Q :=
  if String.eqb s "0.5" then Some (1 # 2)
  else if String.eqb s "0.05" then Some (1 # 20)
  else if String.eqb s "0.3" then Some (3 # 10)
  else if String.eqb s "2.0" then Some 2%Q
  else if String.eqb s "1.0" then Some 1%Q
  else if String.eqb s "3.0" then Some 3%Q
  else if String.eqb s "-1" then Some (-1)%Q
  else None.

Definition int_sample (s : string) : option Z :=
  if String.eqb s "0" then Some 0
  else if String.eqb s "10" then Some 10
  else None.

End FromEnv.

(** ** The callers: logging set-up, loading, the countdown and [main] *)

Module Program.
Import Config Sequencer.

(** *** [_setup_logging] *)

(** The logger of the module, shared by every [FormFiller]: its level and
    its handlers, each with its format. *)
Inductive Handler :=
  | StreamHandler (format : string).

Record Logger := mkLogger {
  level : option Level;
  handlers : list Handler
}.

Definition log_format : string :=
  "%(asctime)s - %(name)s - %(levelname)s - %(message)s".

Definition _setup_logging (logger : Logger) : Logger :=
  {| level := Some INFO;
     handlers := match handlers logger with
                 | [] => [StreamHandler log_format]
                 | _ :: _ => handlers logger
                 end |}.

(** *** Exceptions and output of the callers *)

Inductive Failure :=
  | Sequencer_exn (e : Exn)
  | FileNotFoundError
  | EmptyDataError
  | OtherLoadError
  | KeyError.

Definition is_Exception_ (f : Failure) : bool :=
  match f with
  | Sequencer_exn e => is_Exception e
  | _ => true
  end.

Inductive Line :=
  | Initialized
  | Loaded_records (count : Z) (file_path : string)
  | File_not_found (file_path : string)
  | Empty_file (file_path : string)
  | Prepare
  | Starts_in
  | Count (i : Z)
  | Starting
  | Screen_size (width height : Z)
  | Mouse_position (x y : Z)
  | Interrupted_exiting
  | Error_exit (f : Failure).

(** [Seq e]: an event of the sequencer; [Logged], [Said]: a line of the
    logger or of the console written by a caller. *)
Inductive Out :=
  | Seq (e : Event)
  | Logged (lvl : Level) (l : Line)
  | Said (l : Line).

Inductive PRes (A : Type) :=
  | Done (a : A)
  | Failed (f : Failure).
Arguments Done {A} a.
Arguments Failed {A} f.

Definition P (A : Type) : Type := State -> PRes A * State * list Out.

Definition pret {A} (a : A) : P A := fun s => (Done a, s, []).

Definition praise {A} (f : Failure) : P A := fun s => (Failed f, s, []).

Definition pbind {A B} (m : P A) (k : A -> P B) : P B := fun s =>
  match m s with
  | (Done a, s1, o1) =>
      match k a s1 with
      | (r, s2, o2) => (r, s2, o1 ++ o2)
      end
  | (Failed f, s1, o1) => (Failed f, s1, o1)
  end.

Declare Scope prog_scope.
Delimit Scope prog_scope with prog.
Notation "x <~ c1 ;; c2" := (pbind c1 (fun x => c2))
  (at level 100, c1 at next level, c2 at level 200, right associativity) : prog_scope.
Notation "c1 ;;; c2" := (pbind c1 (fun _ => c2))
  (at level 100, c2 at level 200, right associativity) : prog_scope.
Local Open Scope prog_scope.

(** A computation of the sequencer, run by a caller. *)
Definition lift {A} (m : M A) : P A := fun s =>
  match m s with
  | (Val a, s1, o) => (Done a, s1, map Seq o)
  | (Exc e, s1, o) => (Failed (Sequencer_exn e), s1, map Seq o)
  end.

Definition say (l : Line) : P unit := fun s => (Done tt, s, [Said l]).

Definition logged (lvl : Level) (l : Line) : P unit := fun s =>
  (Done tt, s, [Logged lvl l]).

(** *** [load_data] *)

(** What [pd.read_csv] does with a path: it returns the rows, or raises. *)
Inductive Load :=
  | Frame (data : list (gmap string Cell))
  | Missing
  | Blank
  | Unreadable
  | Interrupted.

Definition Files := string -> Load.

Definition load_data (files : Files) (file_path : string) : P (list (gmap string Cell)) :=
  match files file_path with
  | Frame data =>
      logged INFO (Loaded_records (len data) file_path) ;;;
      pret data
  | Missing =>
      logged ERROR (File_not_found file_path) ;;;
      praise FileNotFoundError
  | Blank =>
      logged ERROR (Empty_file file_path) ;;;
      praise EmptyDataError
  | Unreadable => praise OtherLoadError
  | Interrupted => praise (Sequencer_exn KeyboardInterrupt)
  end.

(** *** [get_screen_info] *)

(** What [pyautogui.size()] and [pyautogui.position()] answer. *)
Record Screen := mkScreen {
  size : Z * Z;
  position : Z * Z
}.

Definition get_screen_info (screen : Screen) : gmap string Z :=
  <["screen_width" := fst (size screen)]>
    (<["screen_height" := snd (size screen)]>
       (<["mouse_x" := fst (position screen)]>
          {[ "mouse_y" := snd (position screen) ]})).

(** [d[key]]. *)
Definition item (d : gmap string Z) (key : string) : P Z :=
  match d !! key with
  | Some v => pret v
  | None => praise KeyError
  end.

(** *** [wait_for_user_setup] *)

(** [range(start, stop, -1)]. *)
Definition range_down (start stop : Z) : list Z :=
  rev (seqZ (stop + 1) (start - stop)).

Fixpoint count_loop (env : Env) (counts : list Z) : P unit :=
  match counts with
  | [] => pret tt
  | i :: rest =>
      say (Count i) ;;;
      lift (time_sleep env 1) ;;;
      count_loop env rest
  end.

Definition wait_for_user_setup (env : Env) (countdown : Z) : P unit :=
  say Prepare ;;;
  say Starts_in ;;;
  count_loop env (range_down countdown 0) ;;;
  say Starting ;;;
  lift (time_sleep env 1).

(** *** [main] *)

Inductive Exit :=
  | Returned
  | SystemExit (code : Z).

Definition main_field_order : list string :=
  ["name"; "email"; "phone"; "address"; "city"; "zipcode"].

(** [FormFiller(config)]: the line of [__init__]. *)
Definition init : P unit := logged INFO Initialized.

Definition main_body (env : Env) (files : Files) (screen : Screen) : P unit :=
  data <~ load_data files "data/sample_data.csv" ;;
  let screen_info := get_screen_info screen in
  width <~ item screen_info "screen_width" ;;
  height <~ item screen_info "screen_height" ;;
  say (Screen_size width height) ;;;
  x <~ item screen_info "mouse_x" ;;
  y <~ item screen_info "mouse_y" ;;
  say (Mouse_position x y) ;;;
  wait_for_user_setup env 5 ;;;
  lift (fill_forms env DEFAULT_CONFIG data main_field_order 0 None).

Definition main (env : Env) (files : Files) (screen : Screen)
    (s : State) : Exit * State * list Out :=
  match (init ;;; main_body env files screen) s with
  | (Done _, s1, o) => (Returned, s1, o)
  | (Failed f, s1, o) =>
      match f with
      | Sequencer_exn KeyboardInterrupt => (Returned, s1, o ++ [Said Interrupted_exiting])
      | _ => (SystemExit 1, s1, o ++ [Said (Error_exit f)])
      end
  end.

(** The events of the sequencer in the output of a caller. *)
Fixpoint seq_events (out : list Out) : list Event :=
  match out with
  | [] => []
  | Seq e :: rest => e :: seq_events rest
  | _ :: rest => seq_events rest
  end.

Fixpoint counts (out : list Out) : list Z :=
  match out with
  | [] => []
  | Said (Count i) :: rest => i :: counts rest
  | _ :: rest => counts rest
  end.

(** The lengths of the sleeps that went through. *)
Definition slept (out : list Event) : list Q :=
  pick (fun e => match e with
                 | Did (Sleep seconds) => Some seconds
                 | _ => None
                 end) out.

(** The calls at the boundary, made or raised. *)
Definition boundary_calls (out : list Event) : list Action :=
  pick (fun e => match e with
                 | Did a => Some a
                 | Raised a _ => Some a
                 | _ => None
                 end) out.

(** A trace in which every event is a sleep of one second, gone through or
    interrupted. *)
Definition only_sleeps (out : list Event) : Prop :=
  Forall (fun e => e = Did (Sleep 1) \/ e = Raised (Sleep 1) KeyboardInterrupt) out.

(** The lines of [main] before the countdown, when the file loads. *)
Definition main_head (screen : Screen) (data : list (gmap string Cell)) : list Out :=
  [Logged INFO Initialized;
   Logged INFO (Loaded_records (len data) "data/sample_data.csv");
   Said (Screen_size (fst (size screen)) (snd (size screen)));
   Said (Mouse_position (fst (position screen)) (snd (position screen)))].

Definition fresh_logger : Logger := {| level := None; handlers := [] |}.

Definition no_files : Files := fun _ => Missing.

Definition one_file (data : list (gmap string Cell)) : Files := fun _ => Frame data.

Definition some_screen : Screen := {| size := (1920, 1080); position := (10, 20) |}.

End Program.

Import Config Sequencer.
Local Open Scope seq_scope.

(** ** Facts about the boundary and the three actions *)

Lemma Qnegb_true (x : Q) : Qnegb x = true <-> (x < 0)%Q.
Proof.
  unfold Qnegb, Qlt. simpl. rewrite Z.ltb_lt. lia.
Qed.

Lemma Qnegb_false (x : Q) : Qnegb x = false <-> (0 <= x)%Q.
Proof.
  unfold Qnegb, Qle. simpl. rewrite Z.ltb_ge. lia.
Qed.

Lemma time_sleep_quiet env d s :
  env (clock s) = NoFault -> (0 <= d)%Q ->
  time_sleep env d s = (Val tt, advance 1 s, [Did (Sleep d)]).
Proof.
  intros H Hd. apply Qnegb_false in Hd.
  unfold time_sleep, bind, tick, emit. rewrite Hd, H. reflexivity.
Qed.

Lemma type_text_quiet env cfg text s :
  quiet env (clock s) 3 ->
  type_text env cfg text true s =
    (Val true, advance 3 s,
     [Call_type_text text true; Did (Hotkey ["ctrl"; "a"]); Did (Sleep (1 # 10));
      Did (Write (str text) (typing_interval cfg))]).
Proof.
  intros H.
  pose proof (H (clock s) ltac:(lia)) as H0.
  pose proof (H (S (clock s)) ltac:(lia)) as H1.
  pose proof (H (S (S (clock s))) ltac:(lia)) as H2.
  unfold type_text, try_except, pyautogui, time_sleep, emit, tick, ret, raise, bind.
  simpl. rewrite H0. simpl. rewrite H1. simpl. rewrite H2. reflexivity.
Qed.

Lemma move_to_next_field_tab_quiet env cfg s :
  quiet env (clock s) 2 -> (0 <= field_transition_delay cfg)%Q ->
  move_to_next_field env cfg "tab" s =
    (Val true, advance 2 s,
     [Call_move_to_next_field "tab"; Did (Press "tab");
      Did (Sleep (field_transition_delay cfg))]).
Proof.
  intros H Hd. apply Qnegb_false in Hd.
  pose proof (H (clock s) ltac:(lia)) as H0.
  pose proof (H (S (clock s)) ltac:(lia)) as H1.
  unfold move_to_next_field, try_except, pyautogui, time_sleep, emit, tick, ret, raise, bind.
  simpl. rewrite H0. simpl. rewrite H1, Hd. reflexivity.
Qed.

Lemma submit_form_enter_quiet env cfg s :
  quiet env (clock s) 2 -> (0 <= form_submission_delay cfg)%Q ->
  submit_form env cfg "enter" s =
    (Val true, advance 2 s,
     [Call_submit_form "enter"; Did (Press "enter");
      Did (Sleep (form_submission_delay cfg))]).
Proof.
  intros H Hd. apply Qnegb_false in Hd.
  pose proof (H (clock s) ltac:(lia)) as H0.
  pose proof (H (S (clock s)) ltac:(lia)) as H1.
  unfold submit_form, try_except, pyautogui, time_sleep, emit, tick, ret, raise, bind.
  simpl. rewrite H0. simpl. rewrite H1, Hd. reflexivity.
Qed.

Lemma submit_form_tab_enter_quiet env cfg s :
  quiet env (clock s) 4 -> (0 <= form_submission_delay cfg)%Q ->
  submit_form env cfg "tab_enter" s =
    (Val true, advance 4 s,
     [Call_submit_form "tab_enter"; Did (Press "tab"); Did (Sleep (1 # 2));
      Did (Press "enter"); Did (Sleep (form_submission_delay cfg))]).
Proof.
  intros H Hd. apply Qnegb_false in Hd.
  pose proof (H (clock s) ltac:(lia)) as H0.
  pose proof (H (S (clock s)) ltac:(lia)) as H1.
  pose proof (H (S (S (clock s))) ltac:(lia)) as H2.
  pose proof (H (S (S (S (clock s)))) ltac:(lia)) as H3.
  unfold submit_form, try_except, pyautogui, time_sleep, emit, tick, ret, raise, bind.
  simpl. rewrite H0. simpl. rewrite H1. simpl. rewrite H2. simpl. rewrite H3, Hd. reflexivity.
Qed.

Lemma DEFAULT_CONFIG_section3 : section3_invariants DEFAULT_CONFIG.
Proof.
  unfold section3_invariants, durations_nonneg. simpl.
  repeat split; try (unfold Qle; simpl; lia); auto.
Qed.

(** C8. [submit_form] with method 'enter' issues exactly one enter keypress;
    with 'tab_enter' it issues a tab keypress, sleeps half a second, then
    issues an enter keypress; in both cases it then sleeps
    [form_submission_delay] and returns [True], when the boundary raises
    nothing during these calls.  The configuration is one of section 3: its
    durations are not negative, [form_submission_delay] and the pause of
    pyautogui ([pause_between_actions]) among them, so that neither the
    sleep nor the pause after a keypress raises. *)
Theorem submit_form_sequences (env : Env) (cfg : FormFillerConfig) (s : State) :
  section3_invariants cfg ->
  (quiet env (clock s) 2 ->
   result (submit_form env cfg "enter" s) = Val true /\
   output (submit_form env cfg "enter" s) =
     [Call_submit_form "enter"; Did (Press "enter");
      Did (Sleep (form_submission_delay cfg))]) /\
  (quiet env (clock s) 4 ->
   result (submit_form env cfg "tab_enter" s) = Val true /\
   output (submit_form env cfg "tab_enter" s) =
     [Call_submit_form "tab_enter"; Did (Press "tab"); Did (Sleep (1 # 2));
      Did (Press "enter"); Did (Sleep (form_submission_delay cfg))]).
Proof.
  intros [(_ & _ & _ & Hd & _) _]. split; intros Hq.
  - rewrite submit_form_enter_quiet by assumption. split; reflexivity.
  - rewrite submit_form_tab_enter_quiet by assumption. split; reflexivity.
Qed.

Lemma quiet_calm t n : quiet calm t n.
Proof. intros k _. reflexivity. Qed.

Lemma submit_form_sequences_witness :
  (result (submit_form calm DEFAULT_CONFIG "enter" start) = Val true /\
   output (submit_form calm DEFAULT_CONFIG "enter" start) =
     [Call_submit_form "enter"; Did (Press "enter"); Did (Sleep 2)]) /\
  (result (submit_form calm DEFAULT_CONFIG "tab_enter" start) = Val true /\
   output (submit_form calm DEFAULT_CONFIG "tab_enter" start) =
     [Call_submit_form "tab_enter"; Did (Press "tab"); Did (Sleep (1 # 2));
      Did (Press "enter"); Did (Sleep 2)]).
Proof.
  destruct (submit_form_sequences calm DEFAULT_CONFIG start DEFAULT_CONFIG_section3)
    as [He Ht].
  split; [apply He | apply Ht]; apply quiet_calm.
Defined.


(** ** Configuration validation *)

Lemma str_in_In (x : string) (l : list string) : str_in x l = true <-> In x l.
Proof.
  unfold str_in. rewrite existsb_exists. split.
  - intros [y [Hy He]]. apply String.eqb_eq in He. subst. exact Hy.
  - intros H. exists x. split; [exact H | apply String.eqb_refl].
Qed.

Lemma nonpos_limit_false (x : option Z) :
  nonpos_limit x = false <-> positive_limit x.
Proof.
  destruct x as [n|]; simpl; [apply Z.leb_gt | tauto].
Qed.

Lemma validate_returns (c : FormFillerConfig) :
  validate c = Returns <->
  (0 <= pause_between_actions c)%Q /\
  (0 <= typing_interval c)%Q /\
  In (navigation_method c) ["tab"; "enter"; "click"] /\
  In (submission_method c) ["enter"; "tab_enter"; "click"] /\
  In (log_level c) ["DEBUG"; "INFO"; "WARNING"; "ERROR"] /\
  positive_limit (max_field_length c) /\
  positive_limit (max_records_per_session c).
Proof.
  unfold validate.
  rewrite <- !Qnegb_false, <- !str_in_In, <- !nonpos_limit_false.
  destruct (Qnegb (pause_between_actions c)), (Qnegb (typing_interval c)),
    (str_in (navigation_method c) ["tab"; "enter"; "click"]),
    (str_in (submission_method c) ["enter"; "tab_enter"; "click"]),
    (str_in (log_level c) ["DEBUG"; "INFO"; "WARNING"; "ERROR"]),
    (nonpos_limit (max_field_length c)),
    (nonpos_limit (max_records_per_session c));
    simpl; split; intros H; try discriminate; try reflexivity;
    try (repeat split; reflexivity);
    decompose [and] H; discriminate.
Qed.

(** C4, as the code has it.  [validate] raises nothing on a configuration
    that satisfies the invariants of the data model and whose [log_level] is
    one of DEBUG, INFO, WARNING, ERROR.  From such a configuration, a
    negative [pause_between_actions] or [typing_interval], a
    [navigation_method], [submission_method] or [log_level] outside its
    choices, or a [max_field_length] or [max_records_per_session] that is
    not positive makes [validate] raise the error that names that field. *)
Theorem validate_checked_fields (c : FormFillerConfig) :
  section3_invariants c ->
  In (log_level c) ["DEBUG"; "INFO"; "WARNING"; "ERROR"] ->
  validate c = Returns /\
  (forall v, (v < 0)%Q ->
     validate (with_pause_between_actions v c) =
       RaisesValueError "pause_between_actions must be non-negative") /\
  (forall v, (v < 0)%Q ->
     validate (with_typing_interval v c) =
       RaisesValueError "typing_interval must be non-negative") /\
  (forall v, ~ In v ["tab"; "enter"; "click"] ->
     validate (with_navigation_method v c) =
       RaisesValueError "navigation_method must be 'tab', 'enter', or 'click'") /\
  (forall v, ~ In v ["enter"; "tab_enter"; "click"] ->
     validate (with_submission_method v c) =
       RaisesValueError "submission_method must be 'enter', 'tab_enter', or 'click'") /\
  (forall v, ~ In v ["DEBUG"; "INFO"; "WARNING"; "ERROR"] ->
     validate (with_log_level v c) =
       RaisesValueError "log_level must be 'DEBUG', 'INFO', 'WARNING', or 'ERROR'") /\
  (forall n, n <= 0 ->
     validate (with_max_field_length (Some n) c) =
       RaisesValueError "max_field_length must be positive or None") /\
  (forall n, n <= 0 ->
     validate (with_max_records_per_session (Some n) c) =
       RaisesValueError "max_records_per_session must be positive or None").
Proof.
  intros (Hd & Hnav & Hsub & Hmf & Hmr) Hlog.
  destruct Hd as (Hp & Ht & _).
  apply Qnegb_false in Hp. apply Qnegb_false in Ht.
  apply str_in_In in Hnav. apply str_in_In in Hsub. apply str_in_In in Hlog.
  apply nonpos_limit_false in Hmf. apply nonpos_limit_false in Hmr.
  repeat split.
  - unfold validate. rewrite Hp, Ht, Hnav, Hsub, Hlog, Hmf, Hmr. reflexivity.
  - intros v Hv. apply Qnegb_true in Hv. unfold validate. simpl. rewrite Hv. reflexivity.
  - intros v Hv. apply Qnegb_true in Hv. unfold validate. simpl. rewrite Hp, Hv. reflexivity.
  - intros v Hv. rewrite <- str_in_In in Hv. apply not_true_is_false in Hv.
    unfold validate. simpl navigation_method. simpl pause_between_actions.
    simpl typing_interval. rewrite Hp, Ht, Hv. reflexivity.
  - intros v Hv. rewrite <- str_in_In in Hv. apply not_true_is_false in Hv.
    unfold validate. simpl navigation_method. simpl submission_method.
    simpl pause_between_actions. simpl typing_interval.
    rewrite Hp, Ht, Hnav, Hv. reflexivity.
  - intros v Hv. rewrite <- str_in_In in Hv. apply not_true_is_false in Hv.
    unfold validate. simpl navigation_method. simpl submission_method.
    simpl log_level. simpl pause_between_actions. simpl typing_interval.
    rewrite Hp, Ht, Hnav, Hsub, Hv. reflexivity.
  - intros n Hn. apply Z.leb_le in Hn.
    unfold validate. simpl navigation_method. simpl submission_method.
    simpl log_level. simpl pause_between_actions. simpl typing_interval.
    simpl max_field_length.
    rewrite Hp, Ht, Hnav, Hsub, Hlog. simpl. rewrite Hn. reflexivity.
  - intros n Hn. apply Z.leb_le in Hn.
    unfold validate. simpl navigation_method. simpl submission_method.
    simpl log_level. simpl pause_between_actions. simpl typing_interval.
    simpl max_field_length. simpl max_records_per_session.
    rewrite Hp, Ht, Hnav, Hsub, Hlog, Hmf. simpl. rewrite Hn. reflexivity.
Qed.

Lemma validate_checked_fields_witness :
  validate DEFAULT_CONFIG = Returns /\
  validate (with_pause_between_actions (-1 # 2) DEFAULT_CONFIG) =
    RaisesValueError "pause_between_actions must be non-negative" /\
  validate (with_max_records_per_session (Some 0) DEFAULT_CONFIG) =
    RaisesValueError "max_records_per_session must be positive or None".
Proof.
  assert (Hl : In (log_level DEFAULT_CONFIG) ["DEBUG"; "INFO"; "WARNING"; "ERROR"])
    by (simpl; auto).
  destruct (validate_checked_fields DEFAULT_CONFIG DEFAULT_CONFIG_section3 Hl)
    as (H0 & H1 & _ & _ & _ & _ & _ & H7).
  split; [exact H0|]. split.
  - apply H1. reflexivity.
  - apply H7. lia.
Defined.

(** C4, as stated, fails.  A configuration within the invariants of the data
    model is refused for its [log_level]; a negative
    [field_transition_delay] passes [validate], and so do the other three
    delays that [validate] never reads. *)
Lemma validate_differs_from_section3 :
  (section3_invariants (with_log_level "TRACE" DEFAULT_CONFIG) /\
   validate (with_log_level "TRACE" DEFAULT_CONFIG) =
     RaisesValueError "log_level must be 'DEBUG', 'INFO', 'WARNING', or 'ERROR'") /\
  ((field_transition_delay (with_field_transition_delay (-1) DEFAULT_CONFIG) < 0)%Q /\
   validate (with_field_transition_delay (-1) DEFAULT_CONFIG) = Returns).
Proof.
  split; split.
  - exact DEFAULT_CONFIG_section3.
  - reflexivity.
  - reflexivity.
  - reflexivity.
Qed.

(** ** The steps of one record, under any environment *)

Ltac unfold_run :=
  cbv beta iota zeta delta
    [type_text move_to_next_field submit_form try_except pyautogui time_sleep
     emit tick ret raise bind logger print result output final fst snd].

Ltac case_faults :=
  repeat (simpl;
    match goal with
    | |- context [match ?f ?t with NoFault => _ | PointerInCorner => _
                  | CtrlC => _ | DispatchFailure => _ end] =>
        destruct (f t)
    | |- context [if Qnegb ?d then _ else _] => destruct (Qnegb d)
    end).

Ltac close_step :=
  simpl; repeat split; eauto; try (repeat constructor; fail).

Lemma type_text_step env cfg text b : step_props (type_text env cfg text b).
Proof.
  intros s. unfold step_outcome. unfold_run. destruct b; case_faults; close_step.
Qed.

Lemma move_to_next_field_step env cfg : step_props (move_to_next_field env cfg "tab").
Proof.
  intros s. unfold step_outcome. unfold_run. case_faults; close_step.
Qed.

Lemma submit_form_step env cfg : step_props (submit_form env cfg "enter").
Proof.
  intros s. unfold step_outcome. unfold_run. case_faults; close_step.
Qed.

Lemma pick_app {A} (f : Event -> option A) (o1 o2 : list Event) :
  pick f (o1 ++ o2) = pick f o1 ++ pick f o2.
Proof.
  induction o1 as [|x o1 IH]; simpl; [reflexivity|].
  destruct (f x); simpl; rewrite IH; reflexivity.
Qed.

Lemma ending_app (o1 o2 : list Event) :
  ending (o1 ++ o2) =
    match ending o1 with
    | Some (a, e, after) => Some (a, e, after ++ o2)
    | None => ending o2
    end.
Proof.
  induction o1 as [|x o1 IH]; simpl; [reflexivity|].
  destruct x; try exact IH. reflexivity.
Qed.

Lemma step_outcome_true (out : list Event) :
  step_outcome (Val true) out -> ending out = None.
Proof.
  unfold step_outcome. destruct (ending out) as [[[a e] after]|]; [|reflexivity].
  destruct e; intros [H _]; discriminate.
Qed.

Lemma step_outcome_exc (e : Exn) (out : list Event) :
  step_outcome (Exc e) out ->
  e = KeyboardInterrupt /\ exists a, ending out = Some (a, KeyboardInterrupt, []).
Proof.
  unfold step_outcome. destruct (ending out) as [[[a e'] after]|]; [|discriminate].
  destruct e'; intros [H H']; try discriminate.
  injection H as ->. subst. eauto.
Qed.

Lemma step_outcome_false (out : list Event) :
  step_outcome (Val false) out ->
  exists a e after, ending out = Some (a, e, after) /\ e <> KeyboardInterrupt /\
    ((e = FailSafeException /\ after = [Log WARNING FailSafe_triggered]) \/
     (e <> FailSafeException /\ exists m, after = [Log ERROR m])).
Proof.
  unfold step_outcome. destruct (ending out) as [[[a e] after]|]; [|discriminate].
  intros H. exists a, e, after. split; [reflexivity|].
  destruct e; destruct H as [H H']; try discriminate;
    (split; [discriminate|]); try (right; split; [discriminate | exact H']).
  left. split; [reflexivity | exact H'].
Qed.

Lemma step_ret_true : step_props (ret true).
Proof. intros s. unfold step_outcome. simpl. repeat split. constructor. Qed.

Lemma step_then (m k : M bool) :
  step_props m -> step_props k ->
  step_props (x <- m ;; if negb x then ret false else k).
Proof.
  intros Hm Hk s. destruct (Hm s) as (Ho & Hf & Hi).
  unfold bind. destruct (m s) as [[r s1] o1].
  unfold result, final, output in *. simpl in Ho, Hf, Hi.
  destruct r as [[|]|e]; simpl.
  - destruct (Hk s1) as (Ho2 & Hf2 & Hi2).
    destruct (k s1) as [[r2 s2] o2].
    unfold result, final, output in *. simpl in *.
    repeat split.
    + unfold step_outcome. rewrite ending_app, (step_outcome_true _ Ho). exact Ho2.
    + apply Forall_app. split; assumption.
    + congruence.
  - rewrite app_nil_r. repeat split; assumption.
  - repeat split; assumption.
Qed.

Lemma step_after_warning (m : Msg) (k : M bool) :
  is_step (Log WARNING m) = true -> step_props k ->
  step_props (logger WARNING m ;; k).
Proof.
  intros Hw Hk s. destruct (Hk s) as (Ho & Hf & Hi).
  unfold bind, logger, emit. destruct (k s) as [[r s1] o1].
  unfold result, final, output in *. simpl in *.
  repeat split; try assumption. constructor; assumption.
Qed.

Lemma fill_fields_step env cfg record field_order :
  step_props (fill_fields env cfg record field_order).
Proof.
  induction field_order as [|field_name rest IH]; simpl.
  - apply step_ret_true.
  - destruct (record !! field_name) as [value|].
    + destruct (notna value); [|exact IH].
      apply step_then; [apply type_text_step|].
      apply step_then; [apply move_to_next_field_step | exact IH].
    + apply step_after_warning; [reflexivity|].
      apply step_then; [apply move_to_next_field_step | exact IH].
Qed.

Lemma fill_single_record_run env cfg record field_order s :
  fill_single_record env cfg record field_order s =
    (result (fill_fields env cfg record field_order s),
     final (fill_fields env cfg record field_order s),
     Call_fill_single_record record field_order ::
       output (fill_fields env cfg record field_order s)).
Proof.
  destruct (fill_fields_step env cfg record field_order s) as (Ho & _ & _).
  unfold fill_single_record, bind, try_except, emit.
  destruct (fill_fields env cfg record field_order s) as [[r s1] o1].
  unfold result, final, output in *. simpl in *. destruct r as [b|e]; [reflexivity|].
  apply step_outcome_exc in Ho. destruct Ho as [-> _]. reflexivity.
Qed.

(** ** The calls made for one record *)

Lemma type_text_calls env cfg text b s :
  typed (output (type_text env cfg text b s)) = [text] /\
  moves (output (type_text env cfg text b s)) = [].
Proof.
  unfold typed, moves. unfold_run. destruct b; case_faults; split; reflexivity.
Qed.

Lemma move_to_next_field_calls env cfg s :
  typed (output (move_to_next_field env cfg "tab" s)) = [] /\
  moves (output (move_to_next_field env cfg "tab" s)) = ["tab"].
Proof.
  unfold typed, moves. unfold_run. case_faults; split; reflexivity.
Qed.

(** When [fill_single_record] succeeds, under any environment, it has typed
    the values that are present and not missing, in field order, and has
    moved once, with 'tab', for each name that is absent from the record or
    has a value that is not missing, and not for the others. *)
Lemma fill_fields_calls env cfg record field_order :
  forall s,
    result (fill_fields env cfg record field_order s) = Val true ->
    typed (output (fill_fields env cfg record field_order s)) =
      values_to_type record field_order /\
    moves (output (fill_fields env cfg record field_order s)) =
      map (fun _ => "tab") (List.filter (advanced_past record) field_order).
Proof.
  unfold values_to_type.
  induction field_order as [|field_name rest IH]; intros s; simpl.
  - intros _. split; reflexivity.
  - unfold advanced_past at 1.
    destruct (record !! field_name) as [value|].
    + destruct (notna value); [|rewrite app_nil_l; apply IH].
      unfold bind.
      destruct (type_text_calls env cfg value true s) as [Ht Hm].
      destruct (type_text env cfg value true s) as [[r1 s1] o1].
      destruct r1 as [[|]|e]; try discriminate. simpl.
      destruct (move_to_next_field_calls env cfg s1) as [Ht2 Hm2].
      destruct (move_to_next_field env cfg "tab" s1) as [[r2 s2] o2].
      destruct r2 as [[|]|e]; try discriminate. simpl.
      specialize (IH s2).
      destruct (fill_fields env cfg record rest s2) as [[r3 s3] o3].
      unfold result, output, typed, moves in *. simpl in *.
      intros Hr. destruct (IH Hr) as [IHt IHm].
      rewrite !pick_app, Ht, Hm, Ht2, Hm2, IHt, IHm. split; reflexivity.
    + unfold bind, logger, emit.
      destruct (move_to_next_field_calls env cfg s) as [Ht2 Hm2].
      destruct (move_to_next_field env cfg "tab" s) as [[r2 s2] o2].
      destruct r2 as [[|]|e]; try discriminate. simpl.
      specialize (IH s2).
      destruct (fill_fields env cfg record rest s2) as [[r3 s3] o3].
      unfold result, output, typed, moves in *. simpl in *.
      intros Hr. destruct (IH Hr) as [IHt IHm].
      rewrite !pick_app, Ht2, Hm2, IHt, IHm. split; reflexivity.
Qed.

(** ** One pass of the loop over the records *)

Lemma step_silent (o : list Event) :
  Forall (fun e => is_step e = true) o ->
  started o = [] /\ completed o = [] /\ failed o = [] /\ processed o = [].
Proof.
  induction 1 as [|x o Hx _ (IH1 & IH2 & IH3 & IH4)]; [repeat split|].
  unfold started, completed, failed, processed in *.
  destruct x as [a|a e|lvl m|m|text b|method|method|record fo];
    try discriminate; simpl; try (repeat split; assumption).
  destruct lvl; try discriminate; destruct m; try discriminate;
    simpl; repeat split; assumption.
Qed.

Ltac fin := first [reflexivity | (f_equal; lia) | eauto].

Ltac leaf :=
  simpl; intros E; injection E as <- <- <-;
  repeat (simpl; rewrite ?pick_app, ?ending_app, ?app_nil_r);
  repeat match goal with
         | H : pick _ _ = _ |- _ => rewrite H
         | H : ending _ = _ |- _ => rewrite H
         end;
  simpl;
  (split; [congruence|]); right;
  (split; [reflexivity|]); (split; [eexists; reflexivity|]);
  first [ left; solve [repeat split; fin]
        | right; split; [reflexivity|];
          first [ solve [repeat split; fin]
                | left; solve [repeat split; fin]
                | right; solve [repeat split; fin] ] ].

Lemma fill_forms_body_run env cfg data field_order i s r s' out :
  fill_forms_body env cfg data field_order i s = (r, s', out) ->
  index s' = Some i /\
  ((r = Exc IndexError /\ out = []) \/
   (started out = [i + 1] /\
    (exists record, processed out = [record]) /\
    ((r = Val true /\ ending out = None /\
      completed out = [i + 1] /\ failed out = []) \/
     (completed out = [] /\ stop_spec (Val false) (i + 1) r (Some i) out)))).
Proof.
  unfold fill_forms_body.
  cbv beta iota zeta delta [bind set_index iloc raise ret logger emit].
  destruct ((if i <? 0 then len data + i else i) <? 0).
  { intros E. injection E as <- <- <-. split; [reflexivity | left; split; reflexivity]. }
  destruct (data !! Z.to_nat (if i <? 0 then len data + i else i)) as [record|].
  2:{ intros E. injection E as <- <- <-. split; [reflexivity | left; split; reflexivity]. }
  rewrite fill_single_record_run.
  match goal with |- context [fill_fields env cfg record field_order ?st] =>
    destruct (fill_fields_step env cfg record field_order st) as (Ho1 & Hf1 & Hi1);
    destruct (fill_fields env cfg record field_order st) as [[r1 s1] o1]
  end.
  unfold result, final, output in *. simpl in Ho1, Hf1, Hi1. simpl.
  destruct (step_silent _ Hf1) as (Hs1 & Hc1 & Hx1 & Hp1).
  unfold stop_spec, started, completed, failed, processed in *.
  destruct r1 as [[|]|e1].
  - (* the record is filled *)
    pose proof (step_outcome_true _ Ho1) as He1. simpl.
    destruct (submit_form_step env cfg s1) as (Ho2 & Hf2 & Hi2).
    destruct (submit_form env cfg "enter" s1) as [[r2 s2] o2].
    unfold result, final, output in *. simpl in Ho2, Hf2, Hi2.
    destruct (step_silent _ Hf2) as (Hs2 & Hc2 & Hx2 & Hp2).
    unfold started, completed, failed, processed in *.
    destruct r2 as [[|]|e2].
    + pose proof (step_outcome_true _ Ho2) as He2.
      unfold time_sleep, tick, emit, raise, ret, bind.
      destruct (wait_for_page_load cfg); case_faults; leaf.
    + apply step_outcome_false in Ho2.
      destruct Ho2 as (a & e & after & He2 & Hk & [[-> ->] | [Hfs [m ->]]]);
        [|destruct e; try congruence]; leaf.
    + apply step_outcome_exc in Ho2. destruct Ho2 as (-> & a & He2). leaf.
  - apply step_outcome_false in Ho1.
    destruct Ho1 as (a & e & after & He1 & Hk & [[-> ->] | [Hfs [m ->]]]);
      [|destruct e; try congruence]; leaf.
  - apply step_outcome_exc in Ho1. destruct Ho1 as (-> & a & He1). leaf.
Qed.

(** ** The loop over the records *)

Lemma seqZ_sorted (m n : Z) : StronglySorted Z.lt (seqZ m n).
Proof.
  destruct (Z.le_gt_cases n 0) as [Hn|Hn]; [rewrite seqZ_nil by lia; constructor|].
  rewrite <- (Z2Nat.id n) by lia. clear Hn.
  generalize (Z.to_nat n) as k. intros k. revert m.
  induction k as [|k IH]; intros m.
  - rewrite seqZ_nil by lia. constructor.
  - rewrite seqZ_cons by lia.
    replace (Z.pred (Z.of_nat (S k))) with (Z.of_nat k) by lia.
    constructor; [apply IH|].
    apply Forall_seqZ. intros. lia.
Qed.

Lemma range_sorted (a b : Z) : StronglySorted Z.lt (range a b).
Proof. apply seqZ_sorted. Qed.

Lemma stop_spec_map {A B} (brk : Res A) (brk' : Res B) k r r' idx out :
  stop_spec brk k r idx out ->
  (r = brk -> r' = brk') ->
  (forall e, r = Exc e -> r' = Exc e) ->
  stop_spec brk' k r' idx out.
Proof.
  unfold stop_spec. intros H Hb He.
  destruct (ending out) as [[[a e] after]|]; [|exact H].
  destruct e.
  - destruct H as (Hr & H). split; [apply He; exact Hr | exact H].
  - destruct H as (Hr & H). split; [apply Hb; exact Hr | exact H].
  - destruct H as [(Hr & H) | (Hr & H)];
      [left; split; [apply Hb; exact Hr | exact H]
      |right; split; [apply He; exact Hr | exact H]].
  - destruct H as [(Hr & H) | (Hr & H)];
      [left; split; [apply Hb; exact Hr | exact H]
      |right; split; [apply He; exact Hr | exact H]].
  - destruct H as [(Hr & H) | (Hr & H)];
      [left; split; [apply Hb; exact Hr | exact H]
      |right; split; [apply He; exact Hr | exact H]].
  - destruct H as [(Hr & H) | (Hr & H)];
      [left; split; [apply Hb; exact Hr | exact H]
      |right; split; [apply He; exact Hr | exact H]].
Qed.

Lemma stop_spec_result {A} (brk : Res A) k r idx out :
  stop_spec brk k r idx out -> r = brk \/ exists e, r = Exc e.
Proof.
  unfold stop_spec. destruct (ending out) as [[[a e] after]|]; [|tauto].
  destruct e; intros H;
    repeat match goal with
           | H : _ /\ _ |- _ => destruct H
           | H : _ \/ _ |- _ => destruct H
           end; eauto.
Qed.

Lemma stop_spec_after {A} (brk : Res A) k r idx o1 o2 :
  ending o1 = None -> failed o1 = [] ->
  stop_spec brk k r idx o2 -> stop_spec brk k r idx (o1 ++ o2).
Proof.
  unfold stop_spec, failed. intros He Hf.
  rewrite ending_app, He, pick_app, Hf. simpl. tauto.
Qed.

Lemma fill_forms_loop_run env cfg data field_order indices :
  StronglySorted Z.lt indices ->
  forall s r s' out,
  fill_forms_loop env cfg data field_order indices s = (r, s', out) ->
  (completed out = started out /\ ending out = None /\ failed out = [] /\
   ((r = Val tt /\ started out = map (fun i => i + 1) indices) \/
    r = Exc IndexError)) \/
  (exists k, In (k - 1) indices /\
     started out = completed out ++ [k] /\
     Forall (fun j => j < k) (completed out) /\
     stop_spec (Val tt) k r (index s') out).
Proof.
  induction 1 as [|i rest Hrest IH Hlt]; intros s r s' out.
  - simpl. unfold ret. intros E. injection E as <- <- <-.
    left. repeat split. left. split; reflexivity.
  - simpl. unfold bind.
    destruct (fill_forms_body env cfg data field_order i s) as [[rb sb] ob] eqn:Eb.
    apply fill_forms_body_run in Eb.
    destruct Eb as (Hidx & [(-> & ->) | (Hst & _ & [(-> & Hend & Hco & Hfa) | (Hco & Hstop)])]).
    + intros E. injection E as <- <- <-.
      left. repeat split. right. reflexivity.
    + destruct (fill_forms_loop env cfg data field_order rest sb) as [[rl sl] ol] eqn:El.
      apply IH in El. intros E. injection E as <- <- <-.
      unfold started, completed, failed in *. rewrite !pick_app, Hst, Hco, Hfa.
      rewrite ending_app, Hend. simpl.
      destruct El as [(Hc & He & Hf & Hr) | (k & Hin & Hs & Hall & Hstop)].
      * left. rewrite Hc. repeat split; try assumption.
        destruct Hr as [[-> Hs] | ->]; [left | right; reflexivity].
        split; [reflexivity | rewrite Hs; reflexivity].
      * right. exists k. repeat split.
        -- right. exact Hin.
        -- rewrite Hs. reflexivity.
        -- constructor; [|exact Hall].
           rewrite List.Forall_forall in Hlt. specialize (Hlt _ Hin). lia.
        -- apply stop_spec_after; [exact Hend | exact Hfa | exact Hstop].
    + destruct (stop_spec_result _ _ _ _ _ Hstop) as [-> | [e ->]].
      * unfold ret. intros E. injection E as <- <- <-. rewrite app_nil_r.
        right. exists (i + 1). repeat split.
        -- left. lia.
        -- rewrite Hco. exact Hst.
        -- rewrite Hco. constructor.
        -- rewrite Hidx. eapply stop_spec_map; [exact Hstop | reflexivity | discriminate].
      * intros E. injection E as <- <- <-.
        right. exists (i + 1). repeat split.
        -- left. lia.
        -- rewrite Hco. exact Hst.
        -- rewrite Hco. constructor.
        -- rewrite Hidx. eapply stop_spec_map; [exact Hstop | discriminate |].
           intros e' He'. injection He' as ->. reflexivity.
Qed.

(** ** The whole run *)

Lemma fill_forms_unfold env cfg data field_order start_row max_records s :
  fill_forms env cfg data field_order start_row max_records s =
    let stop := end_row data start_row max_records in
    let first := Log INFO (Processing_records start_row (stop - 1)) in
    match fill_forms_loop env cfg data field_order (range start_row stop)
            {| clock := clock s; index := None |} with
    | (Val _, sl, ol) => (Val tt, sl, first :: ol ++ [Log INFO Form_filling_completed])
    | (Exc KeyboardInterrupt, sl, ol) =>
        match index sl with
        | Some i =>
            (Val tt, sl,
             first :: ol ++ [Log INFO (Interrupted_at_record (i + 1));
                             Print (Stopped_at_record (i + 1))])
        | None => (Exc UnboundLocalError, sl, first :: ol ++ [])
        end
    | (Exc FailSafeException, sl, ol) =>
        (Val tt, sl, first :: ol ++ [Log INFO FailSafe_activated])
    | (Exc e, sl, ol) => (Val tt, sl, first :: ol ++ [Log ERROR (Unexpected_error e)])
    end.
Proof.
  unfold fill_forms, new_frame, try_except, get_index, print, logger, emit, bind.
  simpl.
  destruct (fill_forms_loop env cfg data field_order _ _) as [[rl sl] ol].
  destruct rl as [[]|e]; simpl; [reflexivity|].
  destruct e; simpl; try reflexivity.
  destruct (index sl); reflexivity.
Qed.


(** What the run reports, and when, in terms of the loop's trace. *)
Lemma fill_forms_stops env cfg data field_order start_row max_records s :
  let out := output (fill_forms env cfg data field_order start_row max_records s) in
  (ending out = None /\ failed out = []) \/
  (exists k a e after,
     ending out = Some (a, e, after) /\
     started out = completed out ++ [k] /\
     Forall (fun j => j < k) (completed out) /\
     match e with
     | KeyboardInterrupt =>
         failed out = [] /\
         after = [Log INFO (Interrupted_at_record k); Print (Stopped_at_record k)]
     | FailSafeException =>
         failed out = [k] /\
         exists m, after = [Log WARNING FailSafe_triggered; Log ERROR m;
                            Log INFO Form_filling_completed] /\
                   (m = Failed_to_fill k \/ m = Failed_to_submit k)
     | _ =>
         (failed out = [k] /\
          exists m' m, after = [Log ERROR m'; Log ERROR m;
                                Log INFO Form_filling_completed] /\
                       (m = Failed_to_fill k \/ m = Failed_to_submit k)) \/
         (failed out = [] /\ after = [Log ERROR (Unexpected_error e)])
     end).
Proof.
  intros out. subst out. rewrite fill_forms_unfold. cbv zeta.
  destruct (fill_forms_loop env cfg data field_order _ _) as [[rl sl] ol] eqn:El.
  apply fill_forms_loop_run in El; [|apply range_sorted].
  destruct El as [(Hc & He & Hf & Hr) | (k & _ & Hs & Hall & Hstop)].
  - left. destruct Hr as [[-> _] | ->]; unfold output, failed in *; simpl;
      rewrite ending_app, He, pick_app, Hf; split; reflexivity.
  - right. exists k. unfold stop_spec in Hstop.
    destruct (ending ol) as [[[a e] after]|] eqn:He; [|contradiction].
    exists a, e.
    destruct e.
    + destruct Hstop as (-> & -> & Hi & Hf). rewrite Hi.
      replace (k - 1 + 1) with k by lia.
      eexists. unfold output, started, completed, failed in *. simpl.
      rewrite ending_app, He, !pick_app, Hs, Hf. simpl. rewrite !app_nil_r.
      repeat split; try reflexivity. exact Hall.
    + destruct Hstop as (-> & Hf & m & -> & Hm).
      eexists. unfold output, started, completed, failed in *. simpl.
      rewrite ending_app, He, !pick_app, Hs, Hf. simpl. rewrite !app_nil_r.
      repeat split; try reflexivity; [exact Hall|]. exists m. split; [reflexivity | exact Hm].
    + destruct Hstop as [(-> & Hf & m' & m & -> & Hm) | (-> & -> & Hf)];
        eexists; unfold output, started, completed, failed in *; simpl;
        rewrite ending_app, He, !pick_app, Hs, Hf; simpl; rewrite !app_nil_r;
        (repeat split; try reflexivity; [exact Hall|]).
      * left. split; [reflexivity|]. exists m', m. split; [reflexivity | exact Hm].
      * right. split; reflexivity.
    + destruct Hstop as [(-> & Hf & m' & m & -> & Hm) | (-> & -> & Hf)];
        eexists; unfold output, started, completed, failed in *; simpl;
        rewrite ending_app, He, !pick_app, Hs, Hf; simpl; rewrite !app_nil_r;
        (repeat split; try reflexivity; [exact Hall|]).
      * left. split; [reflexivity|]. exists m', m. split; [reflexivity | exact Hm].
      * right. split; reflexivity.
    + destruct Hstop as [(-> & Hf & m' & m & -> & Hm) | (-> & -> & Hf)];
        eexists; unfold output, started, completed, failed in *; simpl;
        rewrite ending_app, He, !pick_app, Hs, Hf; simpl; rewrite !app_nil_r;
        (repeat split; try reflexivity; [exact Hall|]).
      * left. split; [reflexivity|]. exists m', m. split; [reflexivity | exact Hm].
      * right. split; reflexivity.
    + destruct Hstop as [(-> & Hf & m' & m & -> & Hm) | (-> & -> & Hf)];
        eexists; unfold output, started, completed, failed in *; simpl;
        rewrite ending_app, He, !pick_app, Hs, Hf; simpl; rewrite !app_nil_r;
        (repeat split; try reflexivity; [exact Hall|]).
      * left. split; [reflexivity|]. exists m', m. split; [reflexivity | exact Hm].
      * right. split; reflexivity.
Qed.

(** In a run at most one call raises: nothing is raised after the first
    raise. *)
Lemma fill_forms_raises_once env cfg data field_order start_row max_records s a e after :
  ending (output (fill_forms env cfg data field_order start_row max_records s)) =
    Some (a, e, after) ->
  ending after = None.
Proof.
  intros He.
  destruct (fill_forms_stops env cfg data field_order start_row max_records s)
    as [[Hn _] | (k & a' & e' & after' & He' & _ & _ & Hcase)].
  { rewrite Hn in He. discriminate. }
  rewrite He in He'. injection He' as <- <- <-.
  destruct e;
    repeat match goal with
           | H : _ /\ _ |- _ => destruct H
           | H : _ \/ _ |- _ => destruct H
           | H : exists _, _ |- _ => destruct H
           end; subst; reflexivity.
Qed.

(** ** A run in which nothing is raised *)

Lemma faultless_quiet env t n : faultless env -> quiet env t n.
Proof. intros H k _. apply H. Qed.

Lemma fill_fields_faultless env cfg record field_order :
  faultless env -> (0 <= field_transition_delay cfg)%Q ->
  forall s, result (fill_fields env cfg record field_order s) = Val true.
Proof.
  intros Hq Hd. induction field_order as [|field_name rest IH]; intros s; simpl.
  - reflexivity.
  - destruct (record !! field_name) as [value|].
    + destruct (notna value); [|apply IH].
      unfold bind. rewrite type_text_quiet by (apply faultless_quiet, Hq). simpl.
      rewrite move_to_next_field_tab_quiet by (try apply faultless_quiet; assumption).
      simpl. specialize (IH (advance 2 (advance 3 s))).
      destruct (fill_fields env cfg record rest _) as [[r s1] o1]. exact IH.
    + unfold bind, logger, emit.
      rewrite move_to_next_field_tab_quiet by (try apply faultless_quiet; assumption).
      simpl. specialize (IH (advance 2 s)).
      destruct (fill_fields env cfg record rest _) as [[r s1] o1]. exact IH.
Qed.

Lemma fill_forms_body_faultless env cfg data field_order i record s :
  faultless env -> durations_nonneg cfg ->
  0 <= i -> data !! Z.to_nat i = Some record ->
  exists s' out,
    fill_forms_body env cfg data field_order i s = (Val true, s', out) /\
    processed out = [record].
Proof.
  intros Hq (_ & _ & Hft & Hfs & Hrd & Hpl) Hi Hrow.
  unfold fill_forms_body.
  cbv beta iota zeta delta [bind set_index iloc raise ret logger emit].
  destruct (Z.ltb_spec i 0) as [?|_]; [lia|].
  destruct (Z.ltb_spec i 0) as [?|_]; [lia|].
  rewrite Hrow, fill_single_record_run.
  match goal with |- context [fill_fields env cfg record field_order ?st] =>
    pose proof (fill_fields_faultless env cfg record field_order Hq Hft st) as Hr;
    destruct (fill_fields_step env cfg record field_order st) as (_ & Hf1 & _);
    destruct (fill_fields env cfg record field_order st) as [[r1 s1] o1]
  end.
  unfold result, output in *. simpl in Hr, Hf1. subst r1. simpl.
  destruct (step_silent _ Hf1) as (_ & _ & _ & Hp1).
  rewrite submit_form_enter_quiet by (try apply faultless_quiet; assumption). simpl.
  rewrite time_sleep_quiet by (try apply Hq; assumption). simpl.
  destruct (wait_for_page_load cfg).
  - rewrite time_sleep_quiet by (try apply Hq; assumption). simpl.
    eexists _, _. split; [reflexivity|].
    unfold processed in *. simpl. rewrite pick_app, Hp1. reflexivity.
  - eexists _, _. split; [reflexivity|].
    unfold processed in *. simpl. rewrite pick_app, Hp1. reflexivity.
Qed.

Lemma fill_forms_loop_faultless env cfg data field_order indices rows :
  faultless env -> durations_nonneg cfg ->
  Forall2 (fun i record => 0 <= i /\ data !! Z.to_nat i = Some record) indices rows ->
  forall s, exists s' out,
    fill_forms_loop env cfg data field_order indices s = (Val tt, s', out) /\
    processed out = rows /\
    started out = map (fun i => i + 1) indices /\
    completed out = map (fun i => i + 1) indices /\
    failed out = [] /\ ending out = None.
Proof.
  intros Hq Hd. induction 1 as [|i record indices rows [Hi Hrow] _ IH]; intros s.
  - eexists _, _. simpl. unfold ret. repeat split; reflexivity.
  - simpl. unfold bind.
    destruct (fill_forms_body_faultless env cfg data field_order i record s Hq Hd Hi Hrow)
      as (sb & ob & Eb & Hp).
    rewrite Eb.
    apply fill_forms_body_run in Eb.
    destruct Eb as (_ & [(Habs & _) | (Hst & _ & [(_ & Hend & Hco & Hfa) | (_ & Hstop)])]);
      [discriminate| |
       destruct (stop_spec_result _ _ _ _ _ Hstop) as [? | [? ?]]; discriminate].
    destruct (IH sb) as (sl & ol & El & Hpl & Hsl & Hcl & Hfl & Hel).
    rewrite El. eexists _, _. split; [reflexivity|].
    unfold processed, started, completed, failed in *.
    rewrite !pick_app, ending_app, Hp, Hst, Hco, Hfa, Hend, Hpl, Hsl, Hcl, Hfl, Hel.
    repeat split; reflexivity.
Qed.

Lemma seqZ_rows (data : list Record_) (n : nat) :
  forall a, 0 <= a -> a + Z.of_nat n <= len data ->
  Forall2 (fun i record => 0 <= i /\ data !! Z.to_nat i = Some record)
    (seqZ a (Z.of_nat n)) (take n (drop (Z.to_nat a) data)).
Proof.
  unfold len. induction n as [|n IH]; intros a Ha Hb.
  - rewrite seqZ_nil by lia. constructor.
  - rewrite seqZ_cons by lia.
    replace (Z.pred (Z.of_nat (S n))) with (Z.of_nat n) by lia.
    destruct (data !! Z.to_nat a) as [x|] eqn:Hx.
    + rewrite (drop_S _ _ _ Hx). simpl. constructor; [split; assumption|].
      replace (S (Z.to_nat a)) with (Z.to_nat (Z.succ a)) by lia.
      apply IH; lia.
    + apply lookup_ge_None in Hx. lia.
Qed.

Lemma range_rows (data : list Record_) (a b : Z) :
  0 <= a -> b <= len data ->
  Forall2 (fun i record => 0 <= i /\ data !! Z.to_nat i = Some record)
    (range a b) (take (Z.to_nat (b - a)) (drop (Z.to_nat a) data)).
Proof.
  intros Ha Hb. unfold range.
  destruct (Z.le_gt_cases (b - a) 0) as [Hn|Hn].
  - rewrite seqZ_nil by lia. replace (Z.to_nat (b - a)) with 0%nat by lia. constructor.
  - rewrite <- (Z2Nat.id (b - a)) at 1 by lia. apply seqZ_rows; lia.
Qed.

(** A run in which nothing is raised goes through the rows
    [start_row .. stop - 1] of the data, in order, and ends with
    "Form filling completed!". *)
Lemma fill_forms_faultless env cfg data field_order start_row max_records s :
  faultless env -> durations_nonneg cfg -> 0 <= start_row ->
  let stop := end_row data start_row max_records in
  let run := fill_forms env cfg data field_order start_row max_records s in
  result run = Val tt /\
  ending (output run) = None /\
  failed (output run) = [] /\
  processed (output run) =
    take (Z.to_nat (stop - start_row)) (drop (Z.to_nat start_row) data) /\
  started (output run) = map (fun i => i + 1) (range start_row stop) /\
  completed (output run) = started (output run) /\
  last (output run) = Some (Log INFO Form_filling_completed).
Proof.
  intros Hq Hd Hs stop run. subst run. rewrite fill_forms_unfold. cbv zeta.
  assert (Hstop : stop <= len data).
  { subst stop. unfold end_row. destruct max_records as [m|]; [|lia].
    destruct (m =? 0); lia. }
  destruct (fill_forms_loop_faultless env cfg data field_order _ _ Hq Hd
              (range_rows data start_row stop Hs Hstop)
              {| clock := clock s; index := None |})
    as (sl & ol & El & Hp & Hst & Hco & Hfa & Hen).
  fold stop. rewrite El.
  unfold result, output, processed, started, completed, failed in *. simpl.
  rewrite !pick_app, ending_app, Hp, Hst, Hco, Hfa, Hen. simpl. rewrite !app_nil_r.
  repeat split; try reflexivity.
  rewrite app_comm_cons. apply last_snoc.
Qed.

(** ** What the sequencer reads of the configuration *)

(** The sequencer reads the typing interval, the three delays it sleeps and
    [wait_for_page_load]; two configurations that agree on them drive the
    same run. *)
Lemma fill_forms_reads env (c c' : FormFillerConfig) :
  typing_interval c = typing_interval c' ->
  field_transition_delay c = field_transition_delay c' ->
  form_submission_delay c = form_submission_delay c' ->
  record_delay c = record_delay c' ->
  page_load_delay c = page_load_delay c' ->
  wait_for_page_load c = wait_for_page_load c' ->
  fill_forms env c = fill_forms env c'.
Proof.
  destruct c, c'. simpl. intros. subst. reflexivity.
Qed.

Lemma fill_fields_reads env (c c' : FormFillerConfig) :
  typing_interval c = typing_interval c' ->
  field_transition_delay c = field_transition_delay c' ->
  fill_fields env c = fill_fields env c'.
Proof.
  destruct c, c'. simpl. intros. subst. reflexivity.
Qed.

Lemma fill_single_record_reads env (c c' : FormFillerConfig) :
  typing_interval c = typing_interval c' ->
  field_transition_delay c = field_transition_delay c' ->
  fill_single_record env c = fill_single_record env c'.
Proof.
  destruct c, c'. simpl. intros. subst. reflexivity.
Qed.

(** Whatever [navigation_method] and [submission_method] are set to, the
    run is the one of the unchanged configuration. *)
Lemma methods_never_read env cfg nav sub :
  fill_forms env (with_navigation_method nav (with_submission_method sub cfg)) =
  fill_forms env cfg.
Proof. apply fill_forms_reads; reflexivity. Qed.

(** C2, at a failing input.  With [navigation_method = 'enter'] and
    [submission_method = 'tab_enter'], a configuration that [validate]
    accepts, the run over one record still advances with 'tab' and submits
    with a single 'enter': [fill_single_record] and [fill_forms] call
    [move_to_next_field()] and [submit_form()] with their defaults. *)
Theorem configured_methods_are_not_used :
  navigation_method other_methods = "enter" /\
  submission_method other_methods = "tab_enter" /\
  validate other_methods = Returns /\
  moves (output (fill_forms calm other_methods [row "A"] ["name"] 0 None start)) = ["tab"] /\
  submits (output (fill_forms calm other_methods [row "A"] ["name"] 0 None start)) = ["enter"] /\
  pressed (output (fill_forms calm other_methods [row "A"] ["name"] 0 None start)) =
    ["tab"; "enter"].
Proof. vm_compute. repeat split. Qed.

(** C1, at a failing input.  [skip_empty_fields] is true and the value of
    "name" is missing: [type_text] is not called for it, and neither is
    [move_to_next_field]; the value of "email" is typed with the cursor
    still on the first field, and the record takes one move for its two
    fields. *)
Theorem missing_value_is_not_advanced_past :
  skip_empty_fields DEFAULT_CONFIG = true /\
  name_missing !! "name" = Some NA /\
  result (fill_single_record calm DEFAULT_CONFIG name_missing ["name"; "email"] start) =
    Val true /\
  output (fill_single_record calm DEFAULT_CONFIG name_missing ["name"; "email"] start) =
    [Call_fill_single_record name_missing ["name"; "email"];
     Call_type_text (Str "a@x.com") true;
     Did (Hotkey ["ctrl"; "a"]); Did (Sleep (1 # 10));
     Did (Write "a@x.com" (1 # 20));
     Call_move_to_next_field "tab"; Did (Press "tab"); Did (Sleep (3 # 10))].
Proof. vm_compute. repeat split. Qed.

(** C3, at a failing input.  A record with a missing value for "email" is
    filled with success in one call of [move_to_next_field], for a field
    order of length two. *)
Theorem missing_value_breaks_the_move_count :
  result (fill_single_record calm DEFAULT_CONFIG email_missing ["name"; "email"] start) =
    Val true /\
  moves (output (fill_single_record calm DEFAULT_CONFIG email_missing
                   ["name"; "email"] start)) = ["tab"] /\
  length ["name"; "email"] = 2%nat.
Proof. vm_compute. repeat split. Qed.

(** C9.  [fill_single_record] does the same whether [skip_empty_fields] is
    true or false; and in both settings a field whose value is missing is
    passed over with no call at all, neither [type_text] nor
    [move_to_next_field]: the loop goes on as if the name were not in the
    field order. *)
Theorem skip_empty_fields_never_consulted env cfg (record : gmap string Cell)
    field_order s :
  fill_single_record env (with_skip_empty_fields true cfg) record field_order s =
  fill_single_record env (with_skip_empty_fields false cfg) record field_order s /\
  forall b field_name rest,
    record !! field_name = Some NA ->
    fill_fields env (with_skip_empty_fields b cfg) record (field_name :: rest) s =
    fill_fields env (with_skip_empty_fields b cfg) record rest s.
Proof.
  split.
  - rewrite (fill_single_record_reads env (with_skip_empty_fields true cfg)
               (with_skip_empty_fields false cfg)); reflexivity.
  - intros b field_name rest H. simpl. rewrite H. reflexivity.
Qed.

Lemma skip_empty_fields_never_consulted_witness :
  fill_single_record calm (with_skip_empty_fields true DEFAULT_CONFIG)
    name_missing ["name"; "email"] start =
  fill_single_record calm (with_skip_empty_fields false DEFAULT_CONFIG)
    name_missing ["name"; "email"] start /\
  fill_fields calm (with_skip_empty_fields false DEFAULT_CONFIG)
    name_missing ["name"; "email"] start =
  fill_fields calm (with_skip_empty_fields false DEFAULT_CONFIG)
    name_missing ["email"] start.
Proof.
  destruct (skip_empty_fields_never_consulted calm DEFAULT_CONFIG name_missing
              ["name"; "email"] start) as [H1 H2].
  split; [exact H1|]. apply H2. reflexivity.
Defined.

(** The example of the specification: two complete records over the field
    order name, email.  Two values typed, two moves and one submit per
    record; both records completed. *)
Example two_complete_records :
  let data := [<["name" := Str "A"]> {[ "email" := Str "a@x.com" ]};
               <["name" := Str "B"]> {[ "email" := Str "b@x.com" ]}] in
  let run := fill_forms calm DEFAULT_CONFIG data ["name"; "email"] 0 None start in
  result run = Val tt /\
  typed (output run) = [Str "A"; Str "a@x.com"; Str "B"; Str "b@x.com"] /\
  moves (output run) = ["tab"; "tab"; "tab"; "tab"] /\
  submits (output run) = ["enter"; "enter"] /\
  completed (output run) = [1; 2] /\
  last (output run) = Some (Log INFO Form_filling_completed).
Proof. vm_compute. repeat split. Qed.

(** ** Failures and aborts *)



(** C5, as the code has it.  When the first exception raised at the boundary
    is an abort (Ctrl-C, or the failsafe of the pointer in the corner), the
    run stops there: the records started are the completed ones and the
    record [k] in progress, which is not completed and after which none is
    started.  On Ctrl-C the run reports that record in progress, by its
    number [k = index + 1], and nothing else follows.  On the failsafe the
    step returns [False]; the run logs that record [k] failed to fill or
    submit and then "Form filling completed!". *)
Theorem abort_stops_the_run env cfg data field_order start_row max_records s a e after :
  ending (output (fill_forms env cfg data field_order start_row max_records s)) =
    Some (a, e, after) ->
  e = KeyboardInterrupt \/ e = FailSafeException ->
  exists k,
    started (output (fill_forms env cfg data field_order start_row max_records s)) =
      completed (output (fill_forms env cfg data field_order start_row max_records s))
        ++ [k] /\
    ~ In k (completed (output (fill_forms env cfg data field_order start_row
                                 max_records s))) /\
    started after = [] /\
    (e = KeyboardInterrupt ->
       after = [Log INFO (Interrupted_at_record k); Print (Stopped_at_record k)]) /\
    (e = FailSafeException ->
       exists m,
         after = [Log WARNING FailSafe_triggered; Log ERROR m;
                  Log INFO Form_filling_completed] /\
         (m = Failed_to_fill k \/ m = Failed_to_submit k)).
Proof.
  intros He Habort.
  destruct (fill_forms_stops env cfg data field_order start_row max_records s)
    as [[Hn _] | (k & a' & e' & after' & He' & Hs & Hall & Hcase)].
  { rewrite Hn in He. discriminate. }
  rewrite He in He'. injection He' as <- <- <-.
  exists k. split; [exact Hs|]. split.
  { intros Hk. rewrite List.Forall_forall in Hall. specialize (Hall _ Hk). lia. }
  destruct Habort as [-> | ->].
  - destruct Hcase as (_ & ->). split; [reflexivity|].
    split; [intros _; reflexivity | discriminate].
  - destruct Hcase as (_ & m & -> & Hm). split; [reflexivity|].
    split; [discriminate|].
    intros _. exists m. split; [reflexivity | exact Hm].
Qed.

Lemma abort_stops_the_run_witness :
  exists k,
    started (output (fill_forms (interrupt_at 9) DEFAULT_CONFIG two_rows ["name"]
                       0 None start)) =
      completed (output (fill_forms (interrupt_at 9) DEFAULT_CONFIG two_rows ["name"]
                           0 None start)) ++ [k] /\
    ~ In k (completed (output (fill_forms (interrupt_at 9) DEFAULT_CONFIG two_rows
                                 ["name"] 0 None start))) /\
    started [Log INFO (Interrupted_at_record 2); Print (Stopped_at_record 2)] = [] /\
    (KeyboardInterrupt = KeyboardInterrupt ->
       [Log INFO (Interrupted_at_record 2); Print (Stopped_at_record 2)] =
       [Log INFO (Interrupted_at_record k); Print (Stopped_at_record k)]) /\
    (KeyboardInterrupt = FailSafeException ->
       exists m,
         [Log INFO (Interrupted_at_record 2); Print (Stopped_at_record 2)] =
         [Log WARNING FailSafe_triggered; Log ERROR m;
          Log INFO Form_filling_completed] /\
         (m = Failed_to_fill k \/ m = Failed_to_submit k)).
Proof.
  apply (abort_stops_the_run (interrupt_at 9) DEFAULT_CONFIG two_rows ["name"] 0 None
           start (Hotkey ["ctrl"; "a"]) KeyboardInterrupt
           [Log INFO (Interrupted_at_record 2); Print (Stopped_at_record 2)]).
  - vm_compute. reflexivity.
  - left. reflexivity.
Defined.

(** C5, as stated, fails.  Ctrl-C, respectively the failsafe, comes while
    the second of two records is being typed.  The last record that was
    completed is the first one (index 0, number 1); the run reports
    record 2, the one in progress, and after the failsafe it reports it as
    a failure and the run as completed. *)
Lemma abort_reports_the_record_in_progress :
  (completed (output (fill_forms (interrupt_at 9) DEFAULT_CONFIG two_rows ["name"]
                        0 None start)) = [1] /\
   ending (output (fill_forms (interrupt_at 9) DEFAULT_CONFIG two_rows ["name"]
                     0 None start)) =
     Some (Hotkey ["ctrl"; "a"], KeyboardInterrupt,
           [Log INFO (Interrupted_at_record 2); Print (Stopped_at_record 2)])) /\
  (completed (output (fill_forms (corner_at 9) DEFAULT_CONFIG two_rows ["name"]
                        0 None start)) = [1] /\
   ending (output (fill_forms (corner_at 9) DEFAULT_CONFIG two_rows ["name"]
                     0 None start)) =
     Some (Hotkey ["ctrl"; "a"], FailSafeException,
           [Log WARNING FailSafe_triggered; Log ERROR (Failed_to_fill 2);
            Log INFO Form_filling_completed])).
Proof. vm_compute. repeat split. Qed.

(** ** The range of records *)

(** C7, for a start index that is not negative.  With a positive
    [max_records], a run in which nothing is raised hands to
    [fill_single_record] exactly the rows with indices from [start_row] up
    to, not including, the smaller of [start_row + max_records] and the
    number of rows, in order; it completes each of them and returns
    without a failure. *)
Theorem run_processes_the_bounded_range env cfg data field_order start_row max_records s :
  faultless env -> durations_nonneg cfg ->
  0 <= start_row -> 0 < max_records ->
  result (fill_forms env cfg data field_order start_row (Some max_records) s) = Val tt /\
  ending (output (fill_forms env cfg data field_order start_row (Some max_records) s)) =
    None /\
  failed (output (fill_forms env cfg data field_order start_row (Some max_records) s)) =
    [] /\
  processed (output (fill_forms env cfg data field_order start_row (Some max_records) s)) =
    take (Z.to_nat (Z.min (start_row + max_records) (len data) - start_row))
      (drop (Z.to_nat start_row) data) /\
  started (output (fill_forms env cfg data field_order start_row (Some max_records) s)) =
    map (fun i => i + 1) (range start_row (Z.min (start_row + max_records) (len data))) /\
  completed (output (fill_forms env cfg data field_order start_row (Some max_records) s)) =
    started (output (fill_forms env cfg data field_order start_row (Some max_records) s)).
Proof.
  intros Hq Hd Hs Hm.
  destruct (fill_forms_faultless env cfg data field_order start_row (Some max_records) s
              Hq Hd Hs) as (H1 & H2 & H3 & H4 & H5 & H6 & _).
  assert (Hstop : end_row data start_row (Some max_records) =
                  Z.min (start_row + max_records) (len data)).
  { unfold end_row. destruct (Z.eqb_spec max_records 0); [lia | reflexivity]. }
  rewrite Hstop in H4, H5. repeat split; assumption.
Qed.

Lemma calm_faultless : faultless calm.
Proof. intros t. reflexivity. Qed.

Lemma DEFAULT_CONFIG_durations : durations_nonneg DEFAULT_CONFIG.
Proof. apply DEFAULT_CONFIG_section3. Qed.

Lemma run_processes_the_bounded_range_witness :
  result (fill_forms calm DEFAULT_CONFIG five_rows ["name"] 1 (Some 2) start) = Val tt /\
  ending (output (fill_forms calm DEFAULT_CONFIG five_rows ["name"] 1 (Some 2) start)) =
    None /\
  failed (output (fill_forms calm DEFAULT_CONFIG five_rows ["name"] 1 (Some 2) start)) =
    [] /\
  processed (output (fill_forms calm DEFAULT_CONFIG five_rows ["name"] 1 (Some 2) start)) =
    [row "B"; row "C"] /\
  started (output (fill_forms calm DEFAULT_CONFIG five_rows ["name"] 1 (Some 2) start)) =
    [2; 3] /\
  completed (output (fill_forms calm DEFAULT_CONFIG five_rows ["name"] 1 (Some 2) start)) =
    started (output (fill_forms calm DEFAULT_CONFIG five_rows ["name"] 1 (Some 2) start)).
Proof.
  apply (run_processes_the_bounded_range calm DEFAULT_CONFIG five_rows ["name"] 1 2 start
           calm_faultless DEFAULT_CONFIG_durations); lia.
Defined.

(** C7, as stated, fails for a negative start index.  With [start_row = -1]
    and [max_records = 2] over five rows, [range(-1, 1)] is [-1, 0] and
    [iloc[-1]] is the last row: the run fills the rows of index 4 and 0,
    where the claim has the row of index 0 alone. *)
Lemma negative_start_row_wraps_around :
  processed (output (fill_forms calm DEFAULT_CONFIG five_rows ["name"] (-1) (Some 2)
                       start)) = [row "E"; row "A"] /\
  typed (output (fill_forms calm DEFAULT_CONFIG five_rows ["name"] (-1) (Some 2)
                   start)) = [Str "E"; Str "A"] /\
  started (output (fill_forms calm DEFAULT_CONFIG five_rows ["name"] (-1) (Some 2)
                     start)) = [0; 1] /\
  result (fill_forms calm DEFAULT_CONFIG five_rows ["name"] (-1) (Some 2) start) = Val tt.
Proof. vm_compute. repeat split. Qed.

(** C10, for a start index that is not negative.  [max_records = 0] is no
    limit: the run is the very run of [max_records = None], for every start
    index; and when nothing is raised and [start_row] is not negative it
    goes through every row from [start_row] to the end of the data. *)
Theorem zero_max_records_is_no_limit env cfg data field_order start_row s :
  fill_forms env cfg data field_order start_row (Some 0) s =
  fill_forms env cfg data field_order start_row None s /\
  (faultless env -> durations_nonneg cfg -> 0 <= start_row ->
   result (fill_forms env cfg data field_order start_row (Some 0) s) = Val tt /\
   processed (output (fill_forms env cfg data field_order start_row (Some 0) s)) =
     drop (Z.to_nat start_row) data /\
   started (output (fill_forms env cfg data field_order start_row (Some 0) s)) =
     map (fun i => i + 1) (range start_row (len data)) /\
   completed (output (fill_forms env cfg data field_order start_row (Some 0) s)) =
     started (output (fill_forms env cfg data field_order start_row (Some 0) s))).
Proof.
  split; [reflexivity|].
  intros Hq Hd Hs.
  destruct (fill_forms_faultless env cfg data field_order start_row (Some 0) s
              Hq Hd Hs) as (H1 & _ & _ & H4 & H5 & H6 & _).
  change (end_row data start_row (Some 0)) with (len data) in H4, H5.
  repeat split; try assumption.
  rewrite H4. apply take_ge. rewrite length_drop. unfold len. lia.
Qed.

Lemma zero_max_records_is_no_limit_witness :
  fill_forms calm DEFAULT_CONFIG five_rows ["name"] 3 (Some 0) start =
  fill_forms calm DEFAULT_CONFIG five_rows ["name"] 3 None start /\
  result (fill_forms calm DEFAULT_CONFIG five_rows ["name"] 3 (Some 0) start) = Val tt /\
  processed (output (fill_forms calm DEFAULT_CONFIG five_rows ["name"] 3 (Some 0) start)) =
    [row "D"; row "E"] /\
  started (output (fill_forms calm DEFAULT_CONFIG five_rows ["name"] 3 (Some 0) start)) =
    [4; 5] /\
  completed (output (fill_forms calm DEFAULT_CONFIG five_rows ["name"] 3 (Some 0) start)) =
    started (output (fill_forms calm DEFAULT_CONFIG five_rows ["name"] 3 (Some 0) start)).
Proof.
  destruct (zero_max_records_is_no_limit calm DEFAULT_CONFIG five_rows ["name"] 3 start)
    as [H1 H2].
  split; [exact H1|].
  apply H2; [exact calm_faultless | exact DEFAULT_CONFIG_durations | lia].
Defined.

(** C10, as stated, fails for a negative start index.  With
    [max_records = 0] over five rows, a run from [start_row = -6] makes no
    call at all: [iloc[-6]] is out of bounds, the [IndexError] is logged and
    no row is processed; and a run from [start_row = -1] walks
    [range(-1, 5)], so it fills the last row, then the five rows from the
    first: six records, the last row twice. *)
Lemma zero_max_records_negative_start :
  (fill_forms calm DEFAULT_CONFIG five_rows ["name"] (-6) (Some 0) start =
     (Val tt, {| clock := 0; index := Some (-6) |},
      [Log INFO (Processing_records (-6) 4);
       Log ERROR (Unexpected_error IndexError)]) /\
   processed (output (fill_forms calm DEFAULT_CONFIG five_rows ["name"] (-6) (Some 0)
                        start)) = []) /\
  (processed (output (fill_forms calm DEFAULT_CONFIG five_rows ["name"] (-1) (Some 0)
                        start)) =
     [row "E"; row "A"; row "B"; row "C"; row "D"; row "E"] /\
   started (output (fill_forms calm DEFAULT_CONFIG five_rows ["name"] (-1) (Some 0)
                      start)) = [0; 1; 2; 3; 4; 5]).
Proof. vm_compute. repeat split. Qed.

(** * Further properties of the code *)

Import CommonConfigs FromEnv.

(** ** [validate], the predefined configurations, and [from_env] *)

(** X1.  [validate] returns without an error exactly for the configurations
    whose [pause_between_actions] and [typing_interval] are not negative,
    whose two methods and log level are among their choices, and whose two
    limits are absent or positive; the other fields play no part. *)
Theorem validate_accepts_exactly (c : FormFillerConfig) :
  validate c = Returns <->
  ((0 <= pause_between_actions c)%Q /\ (0 <= typing_interval c)%Q) /\
  (In (navigation_method c) ["tab"; "enter"; "click"] /\
   In (submission_method c) ["enter"; "tab_enter"; "click"] /\
   In (log_level c) ["DEBUG"; "INFO"; "WARNING"; "ERROR"]) /\
  (positive_limit (max_field_length c) /\
   positive_limit (max_records_per_session c)).
Proof. rewrite validate_returns. tauto. Qed.

Lemma presets_valid (c : FormFillerConfig) :
  In c (DEFAULT_CONFIG :: all) -> validate c = Returns /\ durations_nonneg c.
Proof.
  intros H. simpl in H.
  destruct H as [<- | [<- | [<- | [<- | [<- | []]]]]];
    (split; [reflexivity|]);
    unfold durations_nonneg, Qle; simpl; repeat split; lia.
Qed.

(** X2.  Each predefined configuration ([fast_filling], [slow_reliable],
    [web_forms], [desktop_apps]) and the default one passes [validate],
    and a run with it in which nothing is raised completes every row from
    a start row that is not negative to the end of the data, without a
    failure. *)
Theorem presets_run_to_completion (c : FormFillerConfig) env data field_order
    start_row s :
  In c (DEFAULT_CONFIG :: all) -> faultless env -> 0 <= start_row ->
  validate c = Returns /\
  result (fill_forms env c data field_order start_row None s) = Val tt /\
  processed (output (fill_forms env c data field_order start_row None s)) =
    drop (Z.to_nat start_row) data /\
  completed (output (fill_forms env c data field_order start_row None s)) =
    map (fun i => i + 1) (range start_row (len data)) /\
  failed (output (fill_forms env c data field_order start_row None s)) = [].
Proof.
  intros Hc Hq Hs. destruct (presets_valid c Hc) as [Hv Hd].
  split; [exact Hv|].
  destruct (fill_forms_faultless env c data field_order start_row None s Hq Hd Hs)
    as (H1 & _ & H3 & H4 & H5 & H6 & _).
  change (end_row data start_row None) with (len data) in H4, H5.
  repeat split; try assumption.
  - rewrite H4. apply take_ge. rewrite length_drop. unfold len. lia.
  - rewrite H6. exact H5.
Qed.

Lemma presets_run_to_completion_witness :
  validate desktop_apps = Returns /\
  result (fill_forms calm desktop_apps five_rows ["name"] 2 None start) = Val tt /\
  processed (output (fill_forms calm desktop_apps five_rows ["name"] 2 None start)) =
    [row "C"; row "D"; row "E"] /\
  completed (output (fill_forms calm desktop_apps five_rows ["name"] 2 None start)) =
    [3; 4; 5] /\
  failed (output (fill_forms calm desktop_apps five_rows ["name"] 2 None start)) = [].
Proof.
  apply (presets_run_to_completion desktop_apps calm five_rows ["name"] 2 start).
  - simpl. tauto.
  - exact calm_faultless.
  - lia.
Defined.

Lemma from_env_inv float int environ c :
  from_env float int environ = Some c ->
  exists pause typing transition submission record page field_length per_session,
    float (getenv environ "FF_PAUSE_BETWEEN_ACTIONS" "0.5") = Some pause /\
    float (getenv environ "FF_TYPING_INTERVAL" "0.05") = Some typing /\
    float (getenv environ "FF_FIELD_TRANSITION_DELAY" "0.3") = Some transition /\
    float (getenv environ "FF_FORM_SUBMISSION_DELAY" "2.0") = Some submission /\
    float (getenv environ "FF_RECORD_DELAY" "1.0") = Some record /\
    float (getenv environ "FF_PAGE_LOAD_DELAY" "3.0") = Some page /\
    optional_int int environ "FF_MAX_FIELD_LENGTH" = Some field_length /\
    optional_int int environ "FF_MAX_RECORDS_PER_SESSION" = Some per_session /\
    c = mkConfig pause typing transition submission record page
          (flag environ "FF_WAIT_FOR_PAGE_LOAD")
          (flag environ "FF_CLEAR_FIELDS")
          (flag environ "FF_USE_FAILSAFE")
          (getenv environ "FF_NAVIGATION_METHOD" "tab")
          (getenv environ "FF_SUBMISSION_METHOD" "enter")
          (flag environ "FF_SKIP_EMPTY_FIELDS")
          field_length
          (getenv environ "FF_ENCODING" "utf-8")
          per_session
          (flag environ "FF_CONFIRMATION_REQUIRED")
          (getenv environ "FF_LOG_LEVEL" "INFO")
          (environ !! "FF_LOG_FILE")
          None.
Proof.
  unfold from_env. intros H.
  destruct (float (getenv environ "FF_PAUSE_BETWEEN_ACTIONS" "0.5")) as [pause|];
    [|discriminate].
  destruct (float (getenv environ "FF_TYPING_INTERVAL" "0.05")) as [typing|];
    [|discriminate].
  destruct (float (getenv environ "FF_FIELD_TRANSITION_DELAY" "0.3")) as [transition|];
    [|discriminate].
  destruct (float (getenv environ "FF_FORM_SUBMISSION_DELAY" "2.0")) as [submission|];
    [|discriminate].
  destruct (float (getenv environ "FF_RECORD_DELAY" "1.0")) as [record|];
    [|discriminate].
  destruct (float (getenv environ "FF_PAGE_LOAD_DELAY" "3.0")) as [page|];
    [|discriminate].
  destruct (optional_int int environ "FF_MAX_FIELD_LENGTH") as [field_length|];
    [|discriminate].
  destruct (optional_int int environ "FF_MAX_RECORDS_PER_SESSION") as [per_session|];
    [|discriminate].
  simpl in H. injection H as <-.
  exists pause, typing, transition, submission, record, page, field_length, per_session.
  repeat split; reflexivity.
Qed.

(** X3.  When none of the variables that [from_env] reads is set, and
    [float] reads the six default literals as their values, [from_env]
    gives the configuration of the defaults, whatever else the environment
    holds. *)
Theorem from_env_defaults float int (environ : gmap string string) :
  float "0.5" = Some (1 # 2) -> float "0.05" = Some (1 # 20) ->
  float "0.3" = Some (3 # 10) -> float "2.0" = Some 2%Q ->
  float "1.0" = Some 1%Q -> float "3.0" = Some 3%Q ->
  (forall name, In name variables -> environ !! name = None) ->
  from_env float int environ = Some DEFAULT_CONFIG.
Proof.
  intros H1 H2 H3 H4 H5 H6 Hnone.
  unfold from_env, flag, optional_int, getenv.
  rewrite !Hnone by (simpl; tauto).
  rewrite H1, H2, H3, H4, H5, H6. reflexivity.
Qed.

Lemma from_env_defaults_witness :
  from_env float_sample int_sample {[ "HOME" := "/root" ]} = Some DEFAULT_CONFIG.
Proof.
  apply from_env_defaults; try reflexivity.
  intros name Hin. simpl in Hin.
  repeat (destruct Hin as [<- | Hin]; [reflexivity|]). contradiction.
Defined.

Module Lower.
Import Stdlib.Strings.Ascii.

Ltac all_ascii c :=
  destruct c as [[] [] [] [] [] [] [] []]; vm_compute;
  split; intros H; try discriminate; auto;
  destruct H as [H | H]; discriminate.

Lemma lower_ascii_t c :
  lower_ascii c = "t"%char <-> c = "t"%char \/ c = "T"%char.
Proof. all_ascii c. Qed.

Lemma lower_ascii_r c :
  lower_ascii c = "r"%char <-> c = "r"%char \/ c = "R"%char.
Proof. all_ascii c. Qed.

Lemma lower_ascii_u c :
  lower_ascii c = "u"%char <-> c = "u"%char \/ c = "U"%char.
Proof. all_ascii c. Qed.

Lemma lower_ascii_e c :
  lower_ascii c = "e"%char <-> c = "e"%char \/ c = "E"%char.
Proof. all_ascii c. Qed.

Lemma lower_true (value : string) : lower value = "true" <-> spells_true value.
Proof.
  unfold spells_true. split.
  - destruct value as [|c1 [|c2 [|c3 [|c4 [|c5 rest]]]]]; simpl; try discriminate.
    intros H. injection H as H1 H2 H3 H4.
    exists c1, c2, c3, c4. split; [reflexivity|].
    rewrite <- lower_ascii_t, <- lower_ascii_r, <- lower_ascii_u, <- lower_ascii_e.
    repeat split; assumption.
  - intros (c1 & c2 & c3 & c4 & -> & H1 & H2 & H3 & H4). simpl.
    apply lower_ascii_t in H1. apply lower_ascii_r in H2.
    apply lower_ascii_u in H3. apply lower_ascii_e in H4.
    rewrite H1, H2, H3, H4. reflexivity.
Qed.

End Lower.

Lemma flag_true (environ : gmap string string) name :
  flag environ name = true <->
  environ !! name = None \/ exists value, environ !! name = Some value /\ spells_true value.
Proof.
  unfold flag, getenv. rewrite String.eqb_eq.
  destruct (environ !! name) as [value|].
  - rewrite Lower.lower_true. split.
    + intros H. right. exists value. split; [reflexivity | exact H].
    + intros [H | (v & Hv & H)]; [discriminate|]. injection Hv as ->. exact H.
  - split; [intros _; left; reflexivity | intros _; reflexivity].
Qed.

(** X4.  Each of the five flags of a configuration built by [from_env] is
    true exactly when its variable is not set, or is set to 'true' in any
    mix of upper and lower case; any other value, such as '1', 'yes' or
    the empty string, turns the flag off. *)
Theorem from_env_flags float int (environ : gmap string string) c :
  from_env float int environ = Some c ->
  forall name get,
    In (name, get)
       [("FF_WAIT_FOR_PAGE_LOAD", wait_for_page_load);
        ("FF_CLEAR_FIELDS", clear_fields);
        ("FF_USE_FAILSAFE", use_failsafe);
        ("FF_SKIP_EMPTY_FIELDS", skip_empty_fields);
        ("FF_CONFIRMATION_REQUIRED", confirmation_required)] ->
    (get c = true <->
     environ !! name = None \/
     exists value, environ !! name = Some value /\ spells_true value).
Proof.
  intros H name get Hin. apply from_env_inv in H.
  destruct H as (p & t & tr & su & re & pa & fl & ps & _ & _ & _ & _ & _ & _ & _ & _ & ->).
  simpl in Hin.
  destruct Hin as [E | [E | [E | [E | [E | []]]]]];
    injection E as <- <-; simpl; apply flag_true.
Qed.

Lemma from_env_flags_witness :
  (use_failsafe
     (mkConfig (1 # 2) (1 # 20) (3 # 10) 2 1 3 true true false "tab" "enter" true
        None "utf-8" None true "INFO" None None) = true <->
   ({[ "FF_USE_FAILSAFE" := "1" ]} : gmap string string) !! "FF_USE_FAILSAFE" = None \/
   exists value,
     ({[ "FF_USE_FAILSAFE" := "1" ]} : gmap string string) !! "FF_USE_FAILSAFE" =
       Some value /\ spells_true value).
Proof.
  assert (H : from_env float_sample int_sample {[ "FF_USE_FAILSAFE" := "1" ]} =
              Some (mkConfig (1 # 2) (1 # 20) (3 # 10) 2 1 3 true true false
                      "tab" "enter" true None "utf-8" None true "INFO" None None))
    by reflexivity.
  apply (from_env_flags float_sample int_sample _ _ H "FF_USE_FAILSAFE" use_failsafe).
  simpl. tauto.
Defined.

Lemma optional_int_cases int (environ : gmap string string) name limit :
  optional_int int environ name = Some limit ->
  ((environ !! name = None \/ environ !! name = Some "") -> limit = None) /\
  (forall value, environ !! name = Some value -> value <> "" ->
     int value = limit /\ limit <> None).
Proof.
  unfold optional_int. destruct (environ !! name) as [v|].
  - destruct (String.eqb_spec v "") as [->|Hne].
    + intros H. injection H as <-. split; [reflexivity|].
      intros value Hv Hn. injection Hv as <-. contradiction.
    + destruct (int v) as [n|] eqn:Hn; [|discriminate].
      intros H. injection H as <-. split.
      * intros [H | H]; [discriminate | injection H as ->; contradiction].
      * intros value Hv _. injection Hv as <-. split; [exact Hn | discriminate].
  - intros H. injection H as <-. split; [reflexivity|]. intros value Hv. discriminate.
Qed.

(** X5.  In a configuration built by [from_env], a limit
    ([max_field_length], [max_records_per_session]) is absent when its
    variable is not set or is set to the empty string, and is otherwise the
    integer that [int] reads from the value. *)
Theorem from_env_limits float int (environ : gmap string string) c :
  from_env float int environ = Some c ->
  forall name get,
    In (name, get)
       [("FF_MAX_FIELD_LENGTH", max_field_length);
        ("FF_MAX_RECORDS_PER_SESSION", max_records_per_session)] ->
    ((environ !! name = None \/ environ !! name = Some "") -> get c = None) /\
    (forall value, environ !! name = Some value -> value <> "" ->
       int value = get c /\ get c <> None).
Proof.
  intros H name get Hin. apply from_env_inv in H.
  destruct H as (p & t & tr & su & re & pa & fl & ps &
                 _ & _ & _ & _ & _ & _ & Hfl & Hps & ->).
  simpl in Hin. destruct Hin as [E | [E | []]]; injection E as <- <-; simpl.
  - exact (optional_int_cases _ _ _ _ Hfl).
  - exact (optional_int_cases _ _ _ _ Hps).
Qed.

Lemma from_env_limits_witness :
  ((({[ "FF_MAX_FIELD_LENGTH" := "" ]} : gmap string string) !! "FF_MAX_FIELD_LENGTH" = None \/
    ({[ "FF_MAX_FIELD_LENGTH" := "" ]} : gmap string string) !! "FF_MAX_FIELD_LENGTH" =
      Some "") ->
   max_field_length DEFAULT_CONFIG = None) /\
  (forall value,
     ({[ "FF_MAX_FIELD_LENGTH" := "" ]} : gmap string string) !! "FF_MAX_FIELD_LENGTH" =
       Some value ->
     value <> "" ->
     int_sample value = max_field_length DEFAULT_CONFIG /\
     max_field_length DEFAULT_CONFIG <> None).
Proof.
  assert (H : from_env float_sample int_sample {[ "FF_MAX_FIELD_LENGTH" := "" ]} =
              Some DEFAULT_CONFIG) by reflexivity.
  apply (from_env_limits float_sample int_sample _ _ H
           "FF_MAX_FIELD_LENGTH" max_field_length).
  simpl. tauto.
Defined.

(** X6.  [from_env] fails with the [ValueError] of the parser, whatever the
    other variables are, when one of the six durations is set to a value
    that [float] does not read (the empty string, for one), or when a limit
    is set to a value that is not empty and that [int] does not read. *)
Theorem from_env_malformed_number float int (environ : gmap string string) name value :
  environ !! name = Some value ->
  (In name ["FF_PAUSE_BETWEEN_ACTIONS"; "FF_TYPING_INTERVAL";
            "FF_FIELD_TRANSITION_DELAY"; "FF_FORM_SUBMISSION_DELAY";
            "FF_RECORD_DELAY"; "FF_PAGE_LOAD_DELAY"] /\ float value = None) \/
  (In name ["FF_MAX_FIELD_LENGTH"; "FF_MAX_RECORDS_PER_SESSION"] /\
   value <> "" /\ int value = None) ->
  from_env float int environ = None.
Proof.
  intros Hset Hbad.
  destruct (from_env float int environ) as [c|] eqn:E; [|reflexivity].
  exfalso. apply from_env_inv in E.
  destruct E as (p & t & tr & su & re & pa & fl & ps &
                 H1 & H2 & H3 & H4 & H5 & H6 & H7 & H8 & _).
  unfold getenv in *.
  destruct Hbad as [[Hin Hf] | (Hin & Hne & Hi)]; simpl in Hin.
  - destruct Hin as [<- | [<- | [<- | [<- | [<- | [<- | []]]]]]];
      rewrite Hset in *; congruence.
  - destruct Hin as [<- | [<- | []]].
    + destruct (optional_int_cases _ _ _ _ H7) as [_ H].
      destruct (H value Hset Hne) as [Hv Hn]. congruence.
    + destruct (optional_int_cases _ _ _ _ H8) as [_ H].
      destruct (H value Hset Hne) as [Hv Hn]. congruence.
Qed.

Lemma from_env_malformed_number_witness :
  from_env float_sample int_sample {[ "FF_RECORD_DELAY" := "" ]} = None.
Proof.
  apply (from_env_malformed_number float_sample int_sample _ "FF_RECORD_DELAY" "").
  - reflexivity.
  - left. split; [simpl; tauto | reflexivity].
Defined.

(** X7.  [from_env] hands the methods and the log level on as they are
    written, and checks nothing: when the configuration it builds passes
    [validate], the variables of the two methods and of the log level, if
    set, hold one of the choices in that exact spelling, and a limit that
    is set to a value that is not empty reads as a positive integer. *)
Theorem from_env_then_validate float int (environ : gmap string string) c :
  from_env float int environ = Some c ->
  validate c = Returns ->
  (forall value, environ !! "FF_NAVIGATION_METHOD" = Some value ->
     In value ["tab"; "enter"; "click"]) /\
  (forall value, environ !! "FF_SUBMISSION_METHOD" = Some value ->
     In value ["enter"; "tab_enter"; "click"]) /\
  (forall value, environ !! "FF_LOG_LEVEL" = Some value ->
     In value ["DEBUG"; "INFO"; "WARNING"; "ERROR"]) /\
  (forall name value,
     In name ["FF_MAX_FIELD_LENGTH"; "FF_MAX_RECORDS_PER_SESSION"] ->
     environ !! name = Some value -> value <> "" ->
     exists n, int value = Some n /\ 0 < n).
Proof.
  intros Hc Hv. apply validate_returns in Hv.
  destruct Hv as (_ & _ & Hnav & Hsub & Hlog & Hfl & Hps).
  apply from_env_inv in Hc.
  destruct Hc as (p & t & tr & su & re & pa & fl & ps &
                  _ & _ & _ & _ & _ & _ & Hfl' & Hps' & ->).
  apply optional_int_cases in Hfl', Hps'.
  destruct Hfl' as [_ Hfl'], Hps' as [_ Hps'].
  simpl in *. unfold getenv in *.
  split; [|split; [|split]].
  - intros value Hset. rewrite Hset in Hnav. exact Hnav.
  - intros value Hset. rewrite Hset in Hsub. exact Hsub.
  - intros value Hset. rewrite Hset in Hlog. exact Hlog.
  - intros name value Hin Hset Hne.
    destruct Hin as [<- | [<- | []]].
    + destruct (Hfl' value Hset Hne) as [Hi Hn].
      destruct fl as [n|]; [|congruence]. exists n. split; [exact Hi | exact Hfl].
    + destruct (Hps' value Hset Hne) as [Hi Hn].
      destruct ps as [n|]; [|congruence]. exists n. split; [exact Hi | exact Hps].
Qed.

Lemma from_env_then_validate_witness :
  (forall value,
     ({[ "FF_NAVIGATION_METHOD" := "enter" ]} : gmap string string)
       !! "FF_NAVIGATION_METHOD" = Some value ->
     In value ["tab"; "enter"; "click"]) /\
  (forall value,
     ({[ "FF_NAVIGATION_METHOD" := "enter" ]} : gmap string string)
       !! "FF_SUBMISSION_METHOD" = Some value ->
     In value ["enter"; "tab_enter"; "click"]) /\
  (forall value,
     ({[ "FF_NAVIGATION_METHOD" := "enter" ]} : gmap string string)
       !! "FF_LOG_LEVEL" = Some value ->
     In value ["DEBUG"; "INFO"; "WARNING"; "ERROR"]) /\
  (forall name value,
     In name ["FF_MAX_FIELD_LENGTH"; "FF_MAX_RECORDS_PER_SESSION"] ->
     ({[ "FF_NAVIGATION_METHOD" := "enter" ]} : gmap string string) !! name =
       Some value ->
     value <> "" ->
     exists n, int_sample value = Some n /\ 0 < n).
Proof.
  apply (from_env_then_validate float_sample int_sample
           {[ "FF_NAVIGATION_METHOD" := "enter" ]}
           (with_navigation_method "enter" DEFAULT_CONFIG)); reflexivity.
Defined.

(** ** Further properties of the sequencer *)

Import Program.

Lemma fill_forms_result env cfg data field_order start_row max_records s :
  result (fill_forms env cfg data field_order start_row max_records s) = Val tt.
Proof.
  rewrite fill_forms_unfold. cbv zeta.
  destruct (fill_forms_loop env cfg data field_order _ _) as [[rl sl] ol] eqn:El.
  apply fill_forms_loop_run in El; [|apply range_sorted].
  destruct rl as [[]|e]; [reflexivity|].
  destruct e; try reflexivity.
  destruct El as [(_ & _ & _ & [[H _] | H]) | (k & _ & _ & _ & Hstop)];
    try discriminate.
  unfold stop_spec in Hstop.
  destruct (ending ol) as [[[a e] after]|]; [|contradiction].
  destruct e;
    repeat match goal with
           | H : _ /\ _ |- _ => destruct H
           | H : _ \/ _ |- _ => destruct H
           end; try discriminate.
  match goal with H : index sl = Some _ |- _ => rewrite H end. reflexivity.
Qed.

Lemma fill_forms_loop_raises env cfg data field_order indices :
  forall s e,
    result (fill_forms_loop env cfg data field_order indices s) = Exc e ->
    exists i, In i indices /\
      index (final (fill_forms_loop env cfg data field_order indices s)) = Some i.
Proof.
  induction indices as [|i rest IH]; intros s e.
  - discriminate.
  - simpl. unfold bind.
    destruct (fill_forms_body env cfg data field_order i s) as [[rb sb] ob] eqn:Eb.
    apply fill_forms_body_run in Eb. destruct Eb as [Hidx _].
    destruct rb as [[|]|e'].
    + specialize (IH sb e).
      destruct (fill_forms_loop env cfg data field_order rest sb) as [[rl sl] ol].
      unfold result, final in *. simpl in *.
      intros H. destruct (IH H) as (j & Hj & Hs). exists j. split; [right|]; assumption.
    + discriminate.
    + intros _. exists i. split; [left; reflexivity | exact Hidx].
Qed.

(** X8.  What a call at the boundary raises stays inside [fill_forms].
    Whatever a call of pyautogui or of [time.sleep], or [data.iloc[index]],
    raises during the run (an interrupt, the failsafe, a dispatch error,
    the [ValueError] of a negative delay, an [IndexError]), the exception
    leaves the loop with the loop variable [index] bound to one of the
    indices of the range; so every handler of [fill_forms], the one that
    reads [index] included, ends without raising, and the call returns.
    The exceptions are those of the boundary: an interrupt delivered before
    the loop binds [index] is not among them. *)
Theorem boundary_exceptions_are_handled env cfg data field_order :
  (forall indices s e,
     result (fill_forms_loop env cfg data field_order indices s) = Exc e ->
     exists i, In i indices /\
       index (final (fill_forms_loop env cfg data field_order indices s)) = Some i) /\
  (forall start_row max_records s,
     result (fill_forms env cfg data field_order start_row max_records s) = Val tt).
Proof.
  split.
  - apply fill_forms_loop_raises.
  - intros start_row max_records s. apply fill_forms_result.
Qed.

Lemma fill_forms_loop_started env cfg data field_order indices :
  forall s, exists n,
    started (output (fill_forms_loop env cfg data field_order indices s)) =
      map (fun i => i + 1) (take n indices).
Proof.
  induction indices as [|i rest IH]; intros s.
  - exists 0%nat. reflexivity.
  - simpl. unfold bind.
    destruct (fill_forms_body env cfg data field_order i s) as [[rb sb] ob] eqn:Eb.
    apply fill_forms_body_run in Eb.
    destruct Eb as (_ & [(-> & ->) | (Hst & _ & _)]).
    + exists 0%nat. reflexivity.
    + destruct rb as [[|]|e].
      * destruct (IH sb) as (n & Hn).
        destruct (fill_forms_loop env cfg data field_order rest sb) as [[rl sl] ol].
        exists (S n). unfold output, started in *. simpl in *.
        rewrite pick_app, Hst, Hn. reflexivity.
      * exists 1%nat. unfold output, started in *. simpl.
        rewrite app_nil_r, Hst. destruct rest; reflexivity.
      * exists 1%nat. unfold output, started in *. simpl.
        rewrite Hst. destruct rest; reflexivity.
Qed.

(** X9.  The records a run starts are an initial stretch of
    [range(start_row, end_row)], in that order and each once; all of them
    are completed, except that the last one started may be left
    incomplete. *)
Theorem records_are_started_in_order env cfg data field_order start_row max_records s :
  (exists n,
     started (output (fill_forms env cfg data field_order start_row max_records s)) =
       map (fun i => i + 1)
         (take n (range start_row (end_row data start_row max_records)))) /\
  (completed (output (fill_forms env cfg data field_order start_row max_records s)) =
     started (output (fill_forms env cfg data field_order start_row max_records s)) \/
   exists k,
     started (output (fill_forms env cfg data field_order start_row max_records s)) =
       completed (output (fill_forms env cfg data field_order start_row max_records s))
         ++ [k]).
Proof.
  rewrite fill_forms_unfold. cbv zeta.
  destruct (fill_forms_loop_started env cfg data field_order
              (range start_row (end_row data start_row max_records))
              {| clock := clock s; index := None |}) as (n & Hn).
  destruct (fill_forms_loop env cfg data field_order _ _) as [[rl sl] ol] eqn:El.
  apply fill_forms_loop_run in El; [|apply range_sorted].
  assert (Hout :
    forall tail, started tail = [] -> completed tail = [] ->
    (exists n,
       started (Log INFO (Processing_records start_row
                            (end_row data start_row max_records - 1)) :: ol ++ tail) =
         map (fun i => i + 1)
           (take n (range start_row (end_row data start_row max_records)))) /\
    (completed (Log INFO (Processing_records start_row
                            (end_row data start_row max_records - 1)) :: ol ++ tail) =
       started (Log INFO (Processing_records start_row
                            (end_row data start_row max_records - 1)) :: ol ++ tail) \/
     exists k,
       started (Log INFO (Processing_records start_row
                            (end_row data start_row max_records - 1)) :: ol ++ tail) =
         completed (Log INFO (Processing_records start_row
                                (end_row data start_row max_records - 1)) :: ol ++ tail)
           ++ [k])).
  { intros tail Hs Hc. unfold output, started, completed in *. simpl in *.
    rewrite !pick_app, Hs, Hc, !app_nil_r. split; [exists n; exact Hn|].
    destruct El as [(H & _) | (k & _ & H & _)]; [left; exact H | right; exists k; exact H]. }
  destruct rl as [[]|e]; [apply Hout; reflexivity|].
  destruct e; try (apply Hout; reflexivity).
  destruct (index sl); apply Hout; reflexivity.
Qed.

(** X10.  When the start row is at or past the end of the data, or
    [max_records] is negative, the range of records is empty: the run logs
    its two lines, "Processing records" and "Form filling completed!", and
    makes no call at the boundary, under any environment. *)
Theorem empty_range_does_nothing env cfg data field_order start_row max_records s :
  len data <= start_row \/ (exists m, max_records = Some m /\ m < 0) ->
  fill_forms env cfg data field_order start_row max_records s =
    (Val tt, {| clock := clock s; index := None |},
     [Log INFO (Processing_records start_row
                  (end_row data start_row max_records - 1));
      Log INFO Form_filling_completed]).
Proof.
  intros H. rewrite fill_forms_unfold. cbv zeta.
  assert (Hstop : end_row data start_row max_records - start_row <= 0).
  { unfold end_row. destruct H as [H | (m & -> & Hm)].
    - destruct max_records as [m|]; [|lia]. destruct (m =? 0); lia.
    - destruct (Z.eqb_spec m 0); lia. }
  unfold range. rewrite seqZ_nil by exact Hstop. reflexivity.
Qed.

Lemma empty_range_does_nothing_witness :
  fill_forms (corner_at 0) DEFAULT_CONFIG five_rows ["name"] 5 None start =
    (Val tt, {| clock := 0; index := None |},
     [Log INFO (Processing_records 5 4); Log INFO Form_filling_completed]).
Proof.
  apply (empty_range_does_nothing (corner_at 0) DEFAULT_CONFIG five_rows ["name"]
           5 None start).
  left. vm_compute. discriminate.
Defined.

(** X11.  When the start row lies below [-len(data)] and [max_records] is
    absent or not negative, the first [data.iloc[index]] is out of bounds:
    the run makes no call at the boundary, logs the unexpected
    [IndexError] and returns; "Form filling completed!" is not logged. *)
Theorem start_row_below_the_data env cfg data field_order start_row max_records s :
  start_row < - len data ->
  max_records = None \/ (exists m, max_records = Some m /\ 0 <= m) ->
  fill_forms env cfg data field_order start_row max_records s =
    (Val tt, {| clock := clock s; index := Some start_row |},
     [Log INFO (Processing_records start_row
                  (end_row data start_row max_records - 1));
      Log ERROR (Unexpected_error IndexError)]).
Proof.
  intros Hlow Hmax. rewrite fill_forms_unfold. cbv zeta.
  assert (Hlen : 0 <= len data) by (unfold len; lia).
  assert (Hstop : 0 < end_row data start_row max_records - start_row).
  { unfold end_row. destruct Hmax as [-> | (m & -> & Hm)]; [lia|].
    destruct (Z.eqb_spec m 0); lia. }
  unfold range. rewrite seqZ_cons by exact Hstop.
  simpl. unfold bind, fill_forms_body, set_index, iloc, raise. unfold bind. simpl.
  destruct (Z.ltb_spec start_row 0) as [_|?]; [|lia].
  destruct (Z.ltb_spec (len data + start_row) 0) as [_|?]; [|lia].
  reflexivity.
Qed.

Lemma start_row_below_the_data_witness :
  fill_forms calm DEFAULT_CONFIG five_rows ["name"] (-6) None start =
    (Val tt, {| clock := 0; index := Some (-6) |},
     [Log INFO (Processing_records (-6) 4); Log ERROR (Unexpected_error IndexError)]).
Proof.
  apply (start_row_below_the_data calm DEFAULT_CONFIG five_rows ["name"] (-6) None start).
  - vm_compute. reflexivity.
  - left. reflexivity.
Defined.

Lemma submit_form_negative_delay env cfg s :
  Qnegb (form_submission_delay cfg) = true ->
  result (submit_form env cfg "enter" s) <> Val true.
Proof.
  intros Hd. unfold_run. rewrite Hd. case_faults; discriminate.
Qed.

Lemma time_sleep_negative env d s :
  Qnegb d = true -> exists s', time_sleep env d s = (Exc ValueError, s', [Raised (Sleep d) ValueError]).
Proof.
  intros Hd. unfold time_sleep, bind, tick, emit, raise. rewrite Hd. simpl.
  eexists. reflexivity.
Qed.

Lemma fill_forms_body_negative_delay env cfg data field_order i s :
  (form_submission_delay cfg < 0 \/ record_delay cfg < 0 \/
   (wait_for_page_load cfg = true /\ page_load_delay cfg < 0))%Q ->
  result (fill_forms_body env cfg data field_order i s) <> Val true.
Proof.
  intros Hneg. unfold fill_forms_body.
  cbv beta iota zeta delta [bind set_index iloc raise ret logger emit].
  destruct ((if i <? 0 then len data + i else i) <? 0); [discriminate|].
  destruct (data !! Z.to_nat (if i <? 0 then len data + i else i)) as [record|];
    [|discriminate].
  rewrite fill_single_record_run.
  destruct (fill_fields env cfg record field_order _) as [[r1 s1] o1].
  unfold result, final, output. simpl.
  destruct r1 as [[|]|e1]; simpl; try discriminate.
  pose proof (submit_form_negative_delay env cfg s1) as Hsub.
  destruct (submit_form env cfg "enter" s1) as [[r2 s2] o2].
  unfold result in Hsub. simpl in Hsub.
  destruct r2 as [[|]|e2]; simpl; try discriminate.
  destruct Hneg as [H | [H | [Hw H]]]; apply Qnegb_true in H.
  - exfalso. apply Hsub; [exact H | reflexivity].
  - destruct (time_sleep_negative env _ s2 H) as (s3 & ->). simpl. discriminate.
  - destruct (time_sleep env (record_delay cfg) s2) as [[r3 s3] o3].
    destruct r3 as [[]|e3]; simpl; [|discriminate].
    rewrite Hw. destruct (time_sleep_negative env _ s3 H) as (s4 & ->). simpl.
    discriminate.
Qed.

(** X12.  With a negative [form_submission_delay] or [record_delay], or a
    negative [page_load_delay] while [wait_for_page_load] is on, no run
    completes any record, whatever the data and the environment: these are
    delays that [validate] lets through. *)
Theorem negative_delay_completes_nothing env cfg data field_order start_row
    max_records s :
  (form_submission_delay cfg < 0 \/ record_delay cfg < 0 \/
   (wait_for_page_load cfg = true /\ page_load_delay cfg < 0))%Q ->
  completed (output (fill_forms env cfg data field_order start_row max_records s)) = [].
Proof.
  intros Hneg.
  assert (Hloop : forall indices s0,
    completed (output (fill_forms_loop env cfg data field_order indices s0)) = []).
  { intros [|i rest] s0; [reflexivity|]. simpl. unfold bind.
    pose proof (fill_forms_body_negative_delay env cfg data field_order i s0 Hneg) as Hb.
    destruct (fill_forms_body env cfg data field_order i s0) as [[rb sb] ob] eqn:Eb.
    apply fill_forms_body_run in Eb. unfold result in Hb. simpl in Hb.
    destruct Eb as (_ & [(-> & ->) | (_ & _ & [(-> & _) | (Hco & _)])]);
      [reflexivity | contradiction |].
    destruct rb as [[|]|e]; [contradiction | |];
      unfold output; simpl; rewrite ?app_nil_r; exact Hco. }
  rewrite fill_forms_unfold. cbv zeta.
  specialize (Hloop (range start_row (end_row data start_row max_records))
                {| clock := clock s; index := None |}).
  destruct (fill_forms_loop env cfg data field_order _ _) as [[rl sl] ol].
  unfold output, completed in *. simpl in Hloop.
  destruct rl as [[]|e]; simpl; [rewrite pick_app, Hloop; reflexivity|].
  destruct e; simpl; try (rewrite pick_app, Hloop; reflexivity).
  destruct (index sl); simpl; rewrite pick_app, Hloop; reflexivity.
Qed.

Lemma negative_delay_completes_nothing_witness :
  validate (preset (1 # 2) (1 # 20) (3 # 10) 2 (-1) 3 "tab" "enter" true) = Returns /\
  completed (output (fill_forms calm
                       (preset (1 # 2) (1 # 20) (3 # 10) 2 (-1) 3 "tab" "enter" true)
                       five_rows ["name"] 0 None start)) = [].
Proof.
  split; [reflexivity|].
  apply (negative_delay_completes_nothing calm
           (preset (1 # 2) (1 # 20) (3 # 10) 2 (-1) 3 "tab" "enter" true)
           five_rows ["name"] 0 None start).
  right. left. reflexivity.
Defined.

(** X13.  When [fill_single_record] returns [True], under any environment,
    it has typed exactly the values of the record that are present and not
    missing, in field order, and has moved on with 'tab' once for each name
    that is absent from the record or whose value is not missing. *)
Theorem fill_single_record_calls env cfg (record : gmap string Cell) field_order s :
  result (fill_single_record env cfg record field_order s) = Val true ->
  typed (output (fill_single_record env cfg record field_order s)) =
    values_to_type record field_order /\
  moves (output (fill_single_record env cfg record field_order s)) =
    map (fun _ => "tab") (List.filter (advanced_past record) field_order).
Proof.
  rewrite fill_single_record_run. intros Hr.
  exact (fill_fields_calls env cfg record field_order s Hr).
Qed.

Lemma fill_single_record_calls_witness :
  typed (output (fill_single_record calm DEFAULT_CONFIG email_missing
                   ["name"; "phone"; "email"] start)) = [Str "A"] /\
  moves (output (fill_single_record calm DEFAULT_CONFIG email_missing
                   ["name"; "phone"; "email"] start)) = ["tab"; "tab"].
Proof.
  apply (fill_single_record_calls calm DEFAULT_CONFIG email_missing
           ["name"; "phone"; "email"] start).
  reflexivity.
Defined.

(** X14.  How [fill_single_record] can end, under any environment.  It
    returns [True] only if no call at the boundary raised.  It returns
    [False] only after a call raised something other than an interrupt,
    and then that raise is followed by one log line, a warning for the
    failsafe and an error otherwise, and by no other call.  The only
    exception it lets through is [KeyboardInterrupt], with nothing after
    the call that raised it. *)
Theorem fill_single_record_endings env cfg (record : gmap string Cell) field_order s :
  (result (fill_single_record env cfg record field_order s) = Val true ->
   ending (output (fill_single_record env cfg record field_order s)) = None) /\
  (result (fill_single_record env cfg record field_order s) = Val false ->
   exists a e after,
     ending (output (fill_single_record env cfg record field_order s)) =
       Some (a, e, after) /\
     e <> KeyboardInterrupt /\
     ((e = FailSafeException /\ after = [Log WARNING FailSafe_triggered]) \/
      (e <> FailSafeException /\ exists m, after = [Log ERROR m]))) /\
  (forall e,
     result (fill_single_record env cfg record field_order s) = Exc e ->
     e = KeyboardInterrupt /\
     exists a,
       ending (output (fill_single_record env cfg record field_order s)) =
         Some (a, KeyboardInterrupt, [])).
Proof.
  rewrite fill_single_record_run.
  destruct (fill_fields_step env cfg record field_order s) as (Ho & _ & _).
  destruct (fill_fields env cfg record field_order s) as [[r s1] o].
  unfold result, output in *. simpl in *.
  split; [|split].
  - intros Hr. rewrite Hr in Ho. exact (step_outcome_true _ Ho).
  - intros Hr. rewrite Hr in Ho. exact (step_outcome_false _ Ho).
  - intros e Hr. rewrite Hr in Ho. exact (step_outcome_exc _ _ Ho).
Qed.

Lemma not_in_eqb (x : string) (l : list string) :
  ~ In x l -> Forall (fun y => String.eqb x y = false) l.
Proof.
  intros H. apply List.Forall_forall. intros y Hy.
  apply String.eqb_neq. intros ->. contradiction.
Qed.

(** X15.  The methods that send no input.  [move_to_next_field('click')]
    presses nothing, sleeps the transition delay and returns [True].  With
    a method it does not know, [move_to_next_field] logs a warning and
    returns [False] at once, without a call at the boundary; whereas
    [submit_form] with any method other than 'enter' and 'tab_enter'
    ('click' or an unknown one) presses nothing, sleeps the submission
    delay and returns [True]. *)
Theorem methods_without_input env cfg method s :
  env (clock s) <> CtrlC ->
  (0 <= field_transition_delay cfg)%Q -> (0 <= form_submission_delay cfg)%Q ->
  move_to_next_field env cfg "click" s =
    (Val true, advance 1 s,
     [Call_move_to_next_field "click"; Did (Sleep (field_transition_delay cfg))]) /\
  (~ In method ["tab"; "enter"; "click"] ->
   move_to_next_field env cfg method s =
     (Val false, s,
      [Call_move_to_next_field method; Log WARNING (Unknown_navigation_method method)])) /\
  (~ In method ["enter"; "tab_enter"] ->
   submit_form env cfg method s =
     (Val true, advance 1 s,
      [Call_submit_form method; Did (Sleep (form_submission_delay cfg))])).
Proof.
  intros Henv Hft Hfs. apply Qnegb_false in Hft. apply Qnegb_false in Hfs.
  split; [|split].
  - unfold move_to_next_field, try_except, pyautogui, time_sleep, emit, tick, ret,
      raise, logger, bind. simpl. rewrite Hft.
    destruct (env (clock s)); try reflexivity. contradiction.
  - intros Hm. apply not_in_eqb in Hm.
    inversion Hm as [|? ? H1 Hm1]; subst. inversion Hm1 as [|? ? H2 Hm2]; subst.
    inversion Hm2 as [|? ? H3 _]; subst.
    unfold move_to_next_field, try_except, pyautogui, time_sleep, emit, tick, ret,
      raise, logger, bind. rewrite H1, H2, H3. reflexivity.
  - intros Hm. apply not_in_eqb in Hm.
    inversion Hm as [|? ? H1 Hm1]; subst. inversion Hm1 as [|? ? H2 _]; subst.
    unfold submit_form, try_except, pyautogui, time_sleep, emit, tick, ret,
      raise, logger, bind. rewrite H1, H2.
    destruct (String.eqb method "click"); simpl; rewrite Hfs;
      destruct (env (clock s)); try reflexivity; contradiction.
Qed.

Lemma methods_without_input_witness :
  move_to_next_field calm DEFAULT_CONFIG "click" start =
    (Val true, advance 1 start,
     [Call_move_to_next_field "click"; Did (Sleep (3 # 10))]) /\
  (~ In "space" ["tab"; "enter"; "click"] ->
   move_to_next_field calm DEFAULT_CONFIG "space" start =
     (Val false, start,
      [Call_move_to_next_field "space";
       Log WARNING (Unknown_navigation_method "space")])) /\
  (~ In "space" ["enter"; "tab_enter"] ->
   submit_form calm DEFAULT_CONFIG "space" start =
     (Val true, advance 1 start, [Call_submit_form "space"; Did (Sleep 2)])).
Proof.
  apply (methods_without_input calm DEFAULT_CONFIG "space" start).
  - discriminate.
  - vm_compute. discriminate.
  - vm_compute. discriminate.
Defined.

Ltac any_method method :=
  destruct (String.eqb method "tab"), (String.eqb method "enter"),
    (String.eqb method "tab_enter"), (String.eqb method "click").

Ltac interrupt_only :=
  simpl; split;
  [ intros e H; first [discriminate | injection H as <-; reflexivity]
  | intros H; first [discriminate | eexists _, _; split; [reflexivity | discriminate]] ].

(** X16.  The three actions, with any text, flag and method, let no
    exception through but [KeyboardInterrupt]; and whenever one of them
    returns [False] the last thing it did was to log a warning or an
    error. *)
Theorem actions_only_let_interrupts_through env cfg text clear_field method s :
  ((forall e, result (type_text env cfg text clear_field s) = Exc e ->
      e = KeyboardInterrupt) /\
   (result (type_text env cfg text clear_field s) = Val false ->
      exists lvl m, last (output (type_text env cfg text clear_field s)) =
                      Some (Log lvl m) /\ lvl <> INFO)) /\
  ((forall e, result (move_to_next_field env cfg method s) = Exc e ->
      e = KeyboardInterrupt) /\
   (result (move_to_next_field env cfg method s) = Val false ->
      exists lvl m, last (output (move_to_next_field env cfg method s)) =
                      Some (Log lvl m) /\ lvl <> INFO)) /\
  ((forall e, result (submit_form env cfg method s) = Exc e ->
      e = KeyboardInterrupt) /\
   (result (submit_form env cfg method s) = Val false ->
      exists lvl m, last (output (submit_form env cfg method s)) =
                      Some (Log lvl m) /\ lvl <> INFO)).
Proof.
  split; [|split].
  - unfold_run. destruct clear_field; case_faults; interrupt_only.
  - unfold_run. any_method method; case_faults; interrupt_only.
  - unfold_run. any_method method; case_faults; interrupt_only.
Qed.

Lemma type_text_submits env cfg text b s :
  submits (output (type_text env cfg text b s)) = [].
Proof.
  unfold submits. unfold_run. destruct b; case_faults; reflexivity.
Qed.

Lemma move_to_next_field_submits env cfg s :
  submits (output (move_to_next_field env cfg "tab" s)) = [].
Proof.
  unfold submits. unfold_run. case_faults; reflexivity.
Qed.

Lemma fill_fields_submits env cfg record field_order :
  forall s, submits (output (fill_fields env cfg record field_order s)) = [].
Proof.
  assert (Hmove : forall (k : M bool) s,
    (forall s0, submits (output (k s0)) = []) ->
    submits (output ((moved <- move_to_next_field env cfg "tab" ;;
                      if negb moved then ret false else k) s)) = []).
  { intros k s Hk. unfold bind.
    pose proof (move_to_next_field_submits env cfg s) as H2.
    destruct (move_to_next_field env cfg "tab" s) as [[r2 s2] o2].
    destruct r2 as [[|]|e]; simpl.
    - specialize (Hk s2). destruct (k s2) as [[r3 s3] o3].
      unfold output, submits in *. simpl in *. rewrite pick_app, H2, Hk. reflexivity.
    - unfold output, submits in *. simpl in *. rewrite app_nil_r. exact H2.
    - exact H2. }
  induction field_order as [|field_name rest IH]; intros s; simpl.
  - reflexivity.
  - destruct (record !! field_name) as [value|].
    + destruct (notna value); [|apply IH].
      unfold bind at 1.
      pose proof (type_text_submits env cfg value true s) as H1.
      destruct (type_text env cfg value true s) as [[r1 s1] o1].
      destruct r1 as [[|]|e]; simpl.
      * specialize (Hmove (fill_fields env cfg record rest) s1 IH).
        destruct ((moved <- move_to_next_field env cfg "tab" ;;
                   if negb moved then ret false
                   else fill_fields env cfg record rest) s1) as [[r3 s3] o3].
        unfold output, submits in *. simpl in *. rewrite pick_app, H1, Hmove. reflexivity.
      * unfold output, submits in *. simpl in *. rewrite app_nil_r. exact H1.
      * exact H1.
    + unfold bind at 1, logger, emit.
      specialize (Hmove (fill_fields env cfg record rest) s IH).
      destruct ((moved <- move_to_next_field env cfg "tab" ;;
                 if negb moved then ret false
                 else fill_fields env cfg record rest) s) as [[r3 s3] o3].
      unfold output, submits in *. simpl in *. exact Hmove.
Qed.

Lemma fill_forms_body_faultless_calls env cfg data field_order i record s :
  faultless env -> durations_nonneg cfg ->
  0 <= i -> data !! Z.to_nat i = Some record ->
  exists s' out,
    fill_forms_body env cfg data field_order i s = (Val true, s', out) /\
    typed out = values_to_type record field_order /\
    moves out = map (fun _ => "tab") (List.filter (advanced_past record) field_order) /\
    submits out = ["enter"].
Proof.
  intros Hq (_ & _ & Hft & Hfs & Hrd & Hpl) Hi Hrow.
  unfold fill_forms_body.
  cbv beta iota zeta delta [bind set_index iloc raise ret logger emit].
  destruct (Z.ltb_spec i 0) as [?|_]; [lia|].
  destruct (Z.ltb_spec i 0) as [?|_]; [lia|].
  rewrite Hrow, fill_single_record_run.
  match goal with |- context [fill_fields env cfg record field_order ?st] =>
    pose proof (fill_fields_faultless env cfg record field_order Hq Hft st) as Hr;
    pose proof (fill_fields_calls env cfg record field_order st Hr) as [Ht Hm];
    pose proof (fill_fields_submits env cfg record field_order st) as Hs;
    destruct (fill_fields env cfg record field_order st) as [[r1 s1] o1]
  end.
  unfold result, output in *. simpl in Hr, Ht, Hm, Hs. subst r1. simpl.
  rewrite submit_form_enter_quiet by (try apply faultless_quiet; assumption). simpl.
  rewrite time_sleep_quiet by (try apply Hq; assumption). simpl.
  destruct (wait_for_page_load cfg).
  - rewrite time_sleep_quiet by (try apply Hq; assumption). simpl.
    eexists _, _. split; [reflexivity|].
    unfold typed, moves, submits in *. simpl.
    rewrite !pick_app, Ht, Hm, Hs. simpl. rewrite !app_nil_r. repeat split.
  - eexists _, _. split; [reflexivity|].
    unfold typed, moves, submits in *. simpl.
    rewrite !pick_app, Ht, Hm, Hs. simpl. rewrite !app_nil_r. repeat split.
Qed.

Lemma fill_forms_loop_faultless_calls env cfg data field_order indices rows :
  faultless env -> durations_nonneg cfg ->
  Forall2 (fun i record => 0 <= i /\ data !! Z.to_nat i = Some record) indices rows ->
  forall s, exists s' out,
    fill_forms_loop env cfg data field_order indices s = (Val tt, s', out) /\
    typed out = flat_map (fun record => values_to_type record field_order) rows /\
    moves out =
      flat_map (fun record =>
                  map (fun _ => "tab")
                    (List.filter (advanced_past record) field_order)) rows /\
    submits out = map (fun _ => "enter") rows.
Proof.
  intros Hq Hd. induction 1 as [|i record indices rows [Hi Hrow] _ IH]; intros s.
  - eexists _, _. simpl. unfold ret. repeat split; reflexivity.
  - simpl. unfold bind.
    destruct (fill_forms_body_faultless_calls env cfg data field_order i record s
                Hq Hd Hi Hrow) as (sb & ob & -> & Ht & Hm & Hs).
    destruct (IH sb) as (sl & ol & -> & Htl & Hml & Hsl).
    eexists _, _. split; [reflexivity|].
    unfold typed, moves, submits in *.
    rewrite !pick_app, Ht, Hm, Hs, Htl, Hml, Hsl. repeat split.
Qed.

Lemma fill_forms_faultless_calls env cfg data field_order start_row max_records s :
  faultless env -> durations_nonneg cfg -> 0 <= start_row ->
  typed (output (fill_forms env cfg data field_order start_row max_records s)) =
    flat_map (fun record => values_to_type record field_order)
      (processed (output (fill_forms env cfg data field_order start_row
                            max_records s))) /\
  moves (output (fill_forms env cfg data field_order start_row max_records s)) =
    flat_map (fun record =>
                map (fun _ => "tab") (List.filter (advanced_past record) field_order))
      (processed (output (fill_forms env cfg data field_order start_row
                            max_records s))) /\
  submits (output (fill_forms env cfg data field_order start_row max_records s)) =
    map (fun _ => "enter")
      (processed (output (fill_forms env cfg data field_order start_row
                            max_records s))).
Proof.
  intros Hq Hd Hs.
  destruct (fill_forms_faultless env cfg data field_order start_row max_records s
              Hq Hd Hs) as (_ & _ & _ & Hp & _).
  rewrite Hp. clear Hp.
  rewrite fill_forms_unfold. cbv zeta.
  assert (Hstop : end_row data start_row max_records <= len data).
  { unfold end_row. destruct max_records as [m|]; [|lia]. destruct (m =? 0); lia. }
  destruct (fill_forms_loop_faultless_calls env cfg data field_order _ _ Hq Hd
              (range_rows data start_row _ Hs Hstop)
              {| clock := clock s; index := None |})
    as (sl & ol & -> & Ht & Hm & Hsu).
  unfold output, typed, moves, submits in *. simpl.
  rewrite !pick_app, Ht, Hm, Hsu. simpl. rewrite !app_nil_r. repeat split.
Qed.



(** ** The callers *)

Local Open Scope prog_scope.

(** X18.  [_setup_logging] installs a handler only on a logger that has
    none: however many times it runs (once for each [FormFiller] that is
    created), the logger keeps the handlers left by the first run, one
    handler if it had none before, so no log line is written twice; and
    the level is INFO. *)
Theorem setup_logging_adds_one_handler (n : nat) (logger : Logger) :
  handlers (Nat.iter (S n) _setup_logging logger) = handlers (_setup_logging logger) /\
  level (Nat.iter (S n) _setup_logging logger) = Some INFO /\
  (handlers logger = [] ->
   handlers (Nat.iter (S n) _setup_logging logger) = [StreamHandler log_format]) /\
  (handlers logger <> [] ->
   handlers (Nat.iter (S n) _setup_logging logger) = handlers logger).
Proof.
  assert (Hset : forall l, handlers (_setup_logging l) =
                           match handlers l with
                           | [] => [StreamHandler log_format]
                           | _ :: _ => handlers l
                           end) by reflexivity.
  assert (Hone : handlers (_setup_logging logger) <> []).
  { rewrite Hset. destruct (handlers logger); discriminate. }
  assert (Hiter : handlers (Nat.iter (S n) _setup_logging logger) =
                  handlers (_setup_logging logger) /\
                  level (Nat.iter (S n) _setup_logging logger) = Some INFO).
  { induction n as [|n [IHh IHl]]; [split; reflexivity|].
    change (Nat.iter (S (S n)) _setup_logging logger)
      with (_setup_logging (Nat.iter (S n) _setup_logging logger)).
    remember (Nat.iter (S n) _setup_logging logger) as previous.
    split; [|reflexivity].
    rewrite (Hset previous), IHh.
    destruct (handlers (_setup_logging logger)); [contradiction | reflexivity]. }
  destruct Hiter as [Hh Hl]. repeat split; try assumption.
  - intros H. rewrite Hh, Hset, H. reflexivity.
  - intros H. rewrite Hh, Hset.
    destruct (handlers logger); [contradiction | reflexivity].
Qed.

Lemma time_sleep_one env s :
  time_sleep env 1 s =
    match env (clock s) with
    | CtrlC => (Exc KeyboardInterrupt, advance 1 s, [Raised (Sleep 1) KeyboardInterrupt])
    | _ => (Val tt, advance 1 s, [Did (Sleep 1)])
    end.
Proof.
  unfold time_sleep, bind, tick, emit, raise. simpl.
  destruct (env (clock s)); reflexivity.
Qed.

Lemma seq_events_app (o1 o2 : list Out) :
  seq_events (o1 ++ o2) = seq_events o1 ++ seq_events o2.
Proof.
  induction o1 as [|x o1 IH]; simpl; [reflexivity|].
  destruct x; simpl; rewrite IH; reflexivity.
Qed.

Lemma seq_events_map (o : list Event) : seq_events (map Seq o) = o.
Proof. induction o as [|x o IH]; simpl; [reflexivity | rewrite IH; reflexivity]. Qed.

Lemma counts_app (o1 o2 : list Out) : counts (o1 ++ o2) = counts o1 ++ counts o2.
Proof.
  induction o1 as [|x o1 IH]; simpl; [reflexivity|].
  destruct x as [e|lvl l|l]; simpl; try exact IH.
  destruct l; simpl; try exact IH. rewrite IH. reflexivity.
Qed.

Lemma pick_replicate {A} (f : Event -> option A) (e : Event) (n : nat) :
  pick f (replicate n e) =
    match f e with
    | Some a => replicate n a
    | None => []
    end.
Proof.
  induction n as [|n IH]; simpl; [destruct (f e); reflexivity|].
  rewrite IH. destruct (f e); reflexivity.
Qed.

Lemma only_sleeps_boundary (o : list Event) :
  only_sleeps o -> Forall (fun a => a = Sleep 1) (boundary_calls o).
Proof.
  unfold boundary_calls.
  induction 1 as [|e o [-> | ->] _ IH]; simpl; constructor; auto.
Qed.

Lemma only_sleeps_pick {A} (f : Event -> option A) (o : list Event) :
  only_sleeps o ->
  f (Did (Sleep 1)) = None -> f (Raised (Sleep 1) KeyboardInterrupt) = None ->
  pick f o = [].
Proof.
  intros H H1 H2. induction H as [|e o [-> | ->] _ IH]; simpl;
    [reflexivity | rewrite H1; exact IH | rewrite H2; exact IH].
Qed.

(** A countdown of sleeps: it is done when none of its sleeps is
    interrupted, and fails with the interrupt otherwise; its only calls at
    the boundary are sleeps of one second. *)
Lemma count_loop_run env (numbers : list Z) :
  forall s r s' out,
    count_loop env numbers s = (r, s', out) ->
    index s' = index s /\
    only_sleeps (seq_events out) /\
    ((r = Done tt /\
      (forall k, (k < length numbers)%nat -> env (k + clock s)%nat <> CtrlC) /\
      s' = advance (length numbers) s /\
      counts out = numbers /\
      seq_events out = replicate (length numbers) (Did (Sleep 1))) \/
     (r = Failed (Sequencer_exn KeyboardInterrupt) /\
      exists k, (k < length numbers)%nat /\ env (k + clock s)%nat = CtrlC)).
Proof.
  induction numbers as [|i rest IH]; intros s r s' out.
  - simpl. unfold pret. intros E. injection E as <- <- <-.
    split; [reflexivity|]. split; [constructor|]. left.
    split; [reflexivity|]. split; [intros k Hk; simpl in Hk; lia|].
    split; [destruct s; reflexivity|]. repeat split; reflexivity.
  - simpl. unfold pbind, say, lift. rewrite time_sleep_one.
    destruct (env (clock s)) eqn:Henv.
    1,2,4: (destruct (count_loop env rest (advance 1 s)) as [[rl sl] ol] eqn:El;
      apply IH in El; destruct El as (Hi & Hall & Hcase);
      intros E; injection E as <- <- <-;
      split; [exact Hi|];
      split; [simpl; constructor; [left; reflexivity | exact Hall]|];
      destruct Hcase as [(-> & Hno & -> & Hc & Hsl) | (-> & k & Hk & Hkc)];
      [left; split; [reflexivity|];
       split; [intros k Hk; destruct k as [|k];
                [simpl; rewrite Henv; discriminate
                |specialize (Hno k ltac:(simpl in Hk; lia)); simpl in Hno;
                 replace (S k + clock s)%nat with (k + S (clock s))%nat by lia;
                 exact Hno]|];
       split; [unfold advance; simpl; f_equal; lia|];
       split; [simpl; rewrite Hc; reflexivity|];
       simpl; rewrite Hsl; reflexivity
      |right; split; [reflexivity|];
       exists (S k); split; [simpl; lia|];
       simpl in Hkc; replace (S k + clock s)%nat with (k + S (clock s))%nat by lia;
       exact Hkc]).
    intros E. injection E as <- <- <-.
    split; [reflexivity|].
    split; [simpl; constructor; [right; reflexivity | constructor]|].
    right. split; [reflexivity|]. exists 0%nat. split; [simpl; lia | exact Henv].
Qed.

Lemma length_range_down (n : Z) : length (range_down n 0) = Z.to_nat n.
Proof.
  unfold range_down. rewrite length_rev, length_seqZ. f_equal. lia.
Qed.

Lemma wait_for_user_setup_run env countdown s r s' out :
  wait_for_user_setup env countdown s = (r, s', out) ->
  index s' = index s /\
  only_sleeps (seq_events out) /\
  ((r = Done tt /\
    (forall k, (k <= Z.to_nat countdown)%nat -> env (k + clock s)%nat <> CtrlC) /\
    s' = advance (Z.to_nat countdown + 1) s /\
    counts out = range_down countdown 0 /\
    seq_events out = replicate (Z.to_nat countdown + 1) (Did (Sleep 1))) \/
   (r = Failed (Sequencer_exn KeyboardInterrupt) /\
    exists k, (k <= Z.to_nat countdown)%nat /\ env (k + clock s)%nat = CtrlC)).
Proof.
  unfold wait_for_user_setup, pbind, say.
  destruct (count_loop env (range_down countdown 0) s) as [[rl sl] ol] eqn:El.
  apply count_loop_run in El. rewrite length_range_down in El.
  destruct El as (Hi & Hall & [(-> & Hno & -> & Hc & Hsl) | (-> & k & Hk & Hkc)]).
  - unfold lift. rewrite time_sleep_one.
    destruct (env (clock (advance (Z.to_nat countdown) s))) eqn:Henv;
      intros E; injection E as <- <- <-; (split; [exact Hi|]).
    1,2,4: (split;
      [simpl; rewrite seq_events_app; apply Forall_app; split;
       [exact Hall | simpl; constructor; [left; reflexivity | constructor]]|];
      left; split; [reflexivity|];
      split; [intros j Hj; destruct (Nat.eq_dec j (Z.to_nat countdown)) as [-> | Hne];
               [simpl in Henv; rewrite Henv; discriminate | apply Hno; lia]|];
      split; [unfold advance; simpl; f_equal; lia|];
      split; [simpl; rewrite counts_app, Hc; simpl; apply app_nil_r|];
      simpl; rewrite seq_events_app, Hsl; simpl;
      rewrite <- replicate_S_end, Nat.add_1_r; reflexivity).
    split; [simpl; rewrite seq_events_app; apply Forall_app; split;
            [exact Hall | simpl; constructor; [right; reflexivity | constructor]]|].
    right. split; [reflexivity|]. exists (Z.to_nat countdown).
    split; [lia | exact Henv].
  - intros E. injection E as <- <- <-. split; [exact Hi|].
    split; [simpl; exact Hall|].
    right. split; [reflexivity|]. exists k. split; [lia | exact Hkc].
Qed.

(** X19.  [wait_for_user_setup(countdown)], when no sleep is interrupted:
    it prints the numbers from [countdown] down to 1, none at all for a
    countdown of zero or less, sleeps one second after each and one second
    more at the end, and makes no other call at the boundary. *)
Theorem wait_for_user_setup_counts_down env countdown s :
  (forall k, (k <= Z.to_nat countdown)%nat -> env (k + clock s)%nat <> CtrlC) ->
  exists out,
    wait_for_user_setup env countdown s =
      (Done tt, advance (Z.to_nat countdown + 1) s, out) /\
    counts out = rev (seqZ 1 countdown) /\
    seq_events out = replicate (Z.to_nat countdown + 1) (Did (Sleep 1)).
Proof.
  intros Hno.
  destruct (wait_for_user_setup env countdown s) as [[r s'] out] eqn:E.
  pose proof (wait_for_user_setup_run _ _ _ _ _ _ E)
    as (_ & Hall & [(-> & _ & -> & Hc & Hsl) | (_ & k & Hk & Hkc)]).
  - exists out. split; [reflexivity|]. split; [|exact Hsl].
    rewrite Hc. unfold range_down. repeat f_equal. lia.
  - exfalso. exact (Hno k Hk Hkc).
Qed.

Lemma wait_for_user_setup_counts_down_witness :
  exists out,
    wait_for_user_setup (corner_at 2) 5 start = (Done tt, advance 6 start, out) /\
    counts out = [5; 4; 3; 2; 1] /\
    seq_events out = replicate 6 (Did (Sleep 1)).
Proof.
  apply (wait_for_user_setup_counts_down (corner_at 2) 5 start).
  intros k _. unfold corner_at. destruct (Nat.eqb _ _); discriminate.
Defined.

(** X20.  [wait_for_user_setup] is ended by an interrupt during any of its
    sleeps, and by nothing else: it returns exactly when none of its
    [countdown + 1] sleeps is interrupted, and otherwise lets the
    [KeyboardInterrupt] through; either way its only calls at the boundary
    are sleeps of one second. *)
Theorem wait_for_user_setup_interrupts env countdown s :
  (fst (fst (wait_for_user_setup env countdown s)) = Done tt <->
   forall k, (k <= Z.to_nat countdown)%nat -> env (k + clock s)%nat <> CtrlC) /\
  (fst (fst (wait_for_user_setup env countdown s)) = Done tt \/
   fst (fst (wait_for_user_setup env countdown s)) =
     Failed (Sequencer_exn KeyboardInterrupt)) /\
  Forall (fun a => a = Sleep 1)
    (boundary_calls (seq_events (snd (wait_for_user_setup env countdown s)))).
Proof.
  destruct (wait_for_user_setup env countdown s) as [[r s'] out] eqn:E.
  pose proof (wait_for_user_setup_run _ _ _ _ _ _ E)
    as (_ & Hall & [(-> & Hno & _) | (-> & k & Hk & Hkc)]);
    apply only_sleeps_boundary in Hall; simpl.
  - split; [split; [intros _; exact Hno | reflexivity]|].
    split; [left; reflexivity | exact Hall].
  - split; [split; [discriminate | intros Hno; exfalso; exact (Hno k Hk Hkc)]|].
    split; [right; reflexivity | exact Hall].
Qed.

Lemma get_screen_info_items (screen : Screen) :
  item (get_screen_info screen) "screen_width" = pret (fst (size screen)) /\
  item (get_screen_info screen) "screen_height" = pret (snd (size screen)) /\
  item (get_screen_info screen) "mouse_x" = pret (fst (position screen)) /\
  item (get_screen_info screen) "mouse_y" = pret (snd (position screen)).
Proof.
  unfold item, get_screen_info. repeat split.
Qed.

Lemma main_loaded env files screen s data :
  files "data/sample_data.csv" = Frame data ->
  main env files screen s =
    match wait_for_user_setup env 5 s with
    | (Done _, s1, o1) =>
        (Returned,
         final (fill_forms env DEFAULT_CONFIG data main_field_order 0 None s1),
         main_head screen data ++ o1 ++
           map Seq (output (fill_forms env DEFAULT_CONFIG data main_field_order
                              0 None s1)))
    | (Failed (Sequencer_exn KeyboardInterrupt), s1, o1) =>
        (Returned, s1, main_head screen data ++ o1 ++ [Said Interrupted_exiting])
    | (Failed f, s1, o1) =>
        (SystemExit 1, s1, main_head screen data ++ o1 ++ [Said (Error_exit f)])
    end.
Proof.
  intros Hload. unfold main, main_body, pbind, init, logged, load_data.
  rewrite Hload.
  destruct (get_screen_info_items screen) as (-> & -> & -> & ->).
  unfold pbind, logged, pret, say. simpl.
  destruct (wait_for_user_setup env 5 s) as [[rw sw] ow].
  destruct rw as [[]|f].
  - unfold lift.
    pose proof (fill_forms_result env DEFAULT_CONFIG data main_field_order 0 None sw) as Hr.
    destruct (fill_forms env DEFAULT_CONFIG data main_field_order 0 None sw)
      as [[rf sf] outf].
    unfold result in Hr. simpl in Hr. subst rf. reflexivity.
  - destruct f as [e| | | |]; [destruct e|..]; reflexivity.
Qed.



(** X22.  When the file loads and nothing is raised, [main] counts down
    from five and then fills the form with every row of the file, from the
    first, in the field order name, email, phone, address, city, zipcode:
    each row is handed to [fill_single_record] and completed, the values
    typed are those of the rows in that order, and [main] returns. *)
Theorem main_fills_every_row env files screen s data :
  files "data/sample_data.csv" = Frame data ->
  faultless env ->
  fst (fst (main env files screen s)) = Returned /\
  counts (snd (main env files screen s)) = [5; 4; 3; 2; 1] /\
  processed (seq_events (snd (main env files screen s))) = data /\
  completed (seq_events (snd (main env files screen s))) =
    map (fun i => i + 1) (range 0 (len data)) /\
  typed (seq_events (snd (main env files screen s))) =
    flat_map (fun record => values_to_type record main_field_order) data.
Proof.
  intros Hload Hq. rewrite (main_loaded env files screen s data Hload).
  destruct (wait_for_user_setup env 5 s) as [[rw sw] ow] eqn:Ew.
  pose proof (wait_for_user_setup_run _ _ _ _ _ _ Ew)
    as (_ & Hall & [(-> & _ & _ & Hc & _) | (_ & k & _ & Hkc)]);
    [|rewrite Hq in Hkc; discriminate].
  destruct (fill_forms_faultless env DEFAULT_CONFIG data main_field_order 0 None sw
              Hq DEFAULT_CONFIG_durations ltac:(lia)) as (_ & _ & _ & Hp & Hst & Hco & _).
  destruct (fill_forms_faultless_calls env DEFAULT_CONFIG data main_field_order 0 None sw
              Hq DEFAULT_CONFIG_durations ltac:(lia)) as (Ht & _ & _).
  change (end_row data 0 None) with (len data) in Hp, Hst.
  rewrite Hp in Ht.
  assert (Hdata : take (Z.to_nat (len data - 0)) (drop (Z.to_nat 0) data) = data).
  { simpl. rewrite drop_0. apply take_ge. unfold len. lia. }
  rewrite Hdata in Hp, Ht.
  simpl fst. simpl snd.
  assert (Hcounts : forall o, counts (map Seq o) = []).
  { induction o as [|x o IH]; [reflexivity | exact IH]. }
  unfold main_head. simpl.
  rewrite counts_app, Hc, Hcounts, app_nil_r.
  rewrite seq_events_app, seq_events_map.
  unfold processed, completed, typed in *. rewrite !pick_app.
  rewrite !(only_sleeps_pick _ _ Hall) by reflexivity. simpl.
  rewrite Hp, Hco, Hst, Ht. repeat split.
Qed.

Lemma main_fills_every_row_witness :
  fst (fst (main calm (one_file two_rows) some_screen start)) = Returned /\
  counts (snd (main calm (one_file two_rows) some_screen start)) = [5; 4; 3; 2; 1] /\
  processed (seq_events (snd (main calm (one_file two_rows) some_screen start))) =
    two_rows /\
  completed (seq_events (snd (main calm (one_file two_rows) some_screen start))) =
    map (fun i => i + 1) (range 0 (len two_rows)) /\
  typed (seq_events (snd (main calm (one_file two_rows) some_screen start))) =
    flat_map (fun record => values_to_type record main_field_order) two_rows.
Proof.
  apply (main_fills_every_row calm (one_file two_rows) some_screen start two_rows).
  - reflexivity.
  - exact calm_faultless.
Defined.


